(** * FluxStore: the CSV ingestion pipeline

    A shallow embedding of the product-import path of the FluxStore backend
    (products.service.ts, rabbitmq.service.ts, rabbitmq.config.ts,
    exchange-rates.service.ts, redis.service.ts) together with the
    properties its specification states about it.

    Conventions of the model.
    - JavaScript numbers that the code obtains from [parseInt] are integers
      and are kept as [Z]; the numbers obtained from [parseFloat] are kept as
      the exact decimal [m * 10^e] that the literal denotes (the engine
      rounds that decimal to the nearest double).
    - Strings are [string]s of bytes; white space is the ASCII white space.
    - A [Date] built from year, month and day is kept as its day number
      (days since 1970-01-01) at local midnight; the local time zone is
      taken to be UTC.
    - Telemetry (the NewRelic service) and logging do not throw, have no
      influence on any result and are left out; so is the 300 s timer of
      the pipeline.
    - The collaborators (redis, the rate provider, the datastore, the
      broker, the file system) answer as an environment [Env] says; what
      they hold is the [Store].  *)

From Stdlib Require Import ZArith List String Ascii Bool Lia.
From stdpp Require Import base option list strings pretty gmap.
From Equations Require Import Equations.

Import ListNotations.
Open Scope string_scope.
Open Scope Z_scope.

(* ===================================================================== *)
(** ** JavaScript primitives used by the validator *)
(* ===================================================================== *)

Module JS.

(** A number as [parseFloat] produces it. [Finite m e] is [m * 10^e]. *)
Inductive Number : Type :=
| NaN
| Infinity (negative : bool)
| Finite (mantissa exponent : Z).

Definition isNaN (n : Number) : bool :=
  match n with NaN => true | _ => false end.

Definition code (c : ascii) : Z := Z.of_nat (nat_of_ascii c).

(** TAB, LF, VT, FF, CR and SPACE. *)
Definition isWhiteSpace (c : ascii) : bool :=
  let n := code c in ((9 <=? n) && (n <=? 13)) || (n =? 32).

Fixpoint trimStart (s : string) : string :=
  match s with
  | String c s' => if isWhiteSpace c then trimStart s' else s
  | EmptyString => EmptyString
  end.

(** [trimEnd] drops the trailing white space: a character is kept when it is
    not white space or when something is kept after it. *)
Fixpoint trimEnd (s : string) : string :=
  match s with
  | String c s' =>
      match trimEnd s' with
      | EmptyString => if isWhiteSpace c then EmptyString else String c EmptyString
      | r => String c r
      end
  | EmptyString => EmptyString
  end.

Definition trim (s : string) : string := trimEnd (trimStart s).

(** [s.replace(c, '')] with a string pattern of one character: only the
    first occurrence is replaced. *)
Fixpoint replace_first (c : ascii) (s : string) : string :=
  match s with
  | String a s' => if Ascii.eqb a c then s' else String a (replace_first c s')
  | EmptyString => EmptyString
  end.

(** [s.split(sep)] for a separator of one character. *)
Fixpoint split (sep : ascii) (s : string) : list string :=
  match s with
  | String a s' =>
      if Ascii.eqb a sep then EmptyString :: split sep s'
      else match split sep s' with
           | w :: ws => String a w :: ws
           | [] => [String a EmptyString]
           end
  | EmptyString => [EmptyString]
  end.

(** Value of a digit in the given radix. *)
Definition digit_of (radix : Z) (c : ascii) : option Z :=
  let n := code c in
  let v :=
    if (48 <=? n) && (n <=? 57) then Some (n - 48)
    else if (97 <=? n) && (n <=? 122) then Some (n - 87)
    else if (65 <=? n) && (n <=? 90) then Some (n - 55)
    else None in
  match v with
  | Some d => if d <? radix then Some d else None
  | None => None
  end.

(** Longest prefix of digits; [None] when there is no digit at all. *)
Fixpoint digits_prefix (radix : Z) (s : string) (acc : option Z) : option Z :=
  match s with
  | String c s' =>
      match digit_of radix c with
      | Some d =>
          digits_prefix radix s'
            (Some (match acc with Some a => a * radix + d | None => d end))
      | None => acc
      end
  | EmptyString => acc
  end.

(** [parseInt(s)] with no radix argument; [None] is NaN. *)
Definition parseInt (s : string) : option Z :=
  let s1 := trimStart s in
  let '(neg, s2) :=
    match s1 with
    | String "-" r => (true, r)
    | String "+" r => (false, r)
    | _ => (false, s1)
    end in
  let '(radix, s3) :=
    match s2 with
    | String "0" (String "x" r) => (16, r)
    | String "0" (String "X" r) => (16, r)
    | _ => (10, s2)
    end in
  match digits_prefix radix s3 None with
  | Some v => Some (if neg then - v else v)
  | None => None
  end.

(** Decimal digits at the front of [s], and the rest. *)
Fixpoint span_digits (s : string) : list Z * string :=
  match s with
  | String c s' =>
      match digit_of 10 c with
      | Some d => let '(ds, r) := span_digits s' in (d :: ds, r)
      | None => ([], s)
      end
  | EmptyString => ([], EmptyString)
  end.

Definition digits_value (ds : list Z) : Z :=
  fold_left (fun a d => a * 10 + d) ds 0.

Definition has_prefix (p s : string) : bool := String.prefix p s.

(** [parseFloat(s)]: the longest prefix of the trimmed string that is a
    decimal literal. *)
Definition parseFloat (s : string) : Number :=
  let s1 := trimStart s in
  let '(neg, s2) :=
    match s1 with
    | String "-" r => (true, r)
    | String "+" r => (false, r)
    | _ => (false, s1)
    end in
  if has_prefix "Infinity" s2 then Infinity neg
  else
    let '(ip, r1) := span_digits s2 in
    let '(fp, r2) :=
      match r1 with
      | String "." r => span_digits r
      | _ => ([], r1)
      end in
    match ip, fp with
    | [], [] => NaN
    | _, _ =>
        let ex :=
          match r2 with
          | String c r =>
              if Ascii.eqb c "e" || Ascii.eqb c "E" then
                let '(eneg, r') :=
                  match r with
                  | String "-" q => (true, q)
                  | String "+" q => (false, q)
                  | _ => (false, r)
                  end in
                match fst (span_digits r') with
                | [] => 0
                | ed => if eneg then - digits_value ed else digits_value ed
                end
              else 0
          | EmptyString => 0
          end in
        let m := digits_value (ip ++ fp) in
        Finite (if neg then - m else m) (ex - Z.of_nat (List.length fp))
    end.

End JS.

(* ===================================================================== *)
(** ** Calendar dates: [new Date(year, monthIndex, day)] and [getFullYear] *)
(* ===================================================================== *)

Module JSDate.

(** Day number of the first day of year [y] (ECMAScript, DayFromYear). *)
Definition DayFromYear (y : Z) : Z :=
  365 * (y - 1970) + (y - 1969) / 4 - (y - 1901) / 100 + (y - 1601) / 400.

Definition InLeapYear (y : Z) : bool :=
  if negb (y mod 4 =? 0) then false
  else if negb (y mod 100 =? 0) then true
  else if negb (y mod 400 =? 0) then false
  else true.

(** Day within the year on which month [mn] (0 = January) starts. *)
Definition MonthStart (leap : bool) (mn : Z) : Z :=
  let l := if leap then 1 else 0 in
  match mn with
  | 0 => 0
  | 1 => 31
  | 2 => 59 + l
  | 3 => 90 + l
  | 4 => 120 + l
  | 5 => 151 + l
  | 6 => 181 + l
  | 7 => 212 + l
  | 8 => 243 + l
  | 9 => 273 + l
  | 10 => 304 + l
  | _ => 334 + l
  end.

(** MakeDay: months outside 0..11 carry into the year, and the day of the
    month is added as a plain offset, so it overflows into later months. *)
Definition MakeDay (year month date : Z) : Z :=
  let ym := year + month / 12 in
  let mn := month mod 12 in
  DayFromYear ym + MonthStart (InLeapYear ym) mn + date - 1.

(** YearFromTime on day numbers: the year [y] with
    [DayFromYear y <= d < DayFromYear (y + 1)]. *)
Definition YearFromDay (d : Z) : Z :=
  let y := 1970 + (d * 400) / 146097 in
  if d <? DayFromYear y then y - 1
  else if DayFromYear (y + 1) <=? d then y + 1
  else y.

Definition DayWithinYear (d : Z) : Z := d - DayFromYear (YearFromDay d).

(** MonthFromTime, 0 = January. *)
Definition MonthFromDay (d : Z) : Z :=
  let leap := InLeapYear (YearFromDay d) in
  let w := DayWithinYear d in
  if w <? MonthStart leap 1 then 0
  else if w <? MonthStart leap 2 then 1
  else if w <? MonthStart leap 3 then 2
  else if w <? MonthStart leap 4 then 3
  else if w <? MonthStart leap 5 then 4
  else if w <? MonthStart leap 6 then 5
  else if w <? MonthStart leap 7 then 6
  else if w <? MonthStart leap 8 then 7
  else if w <? MonthStart leap 9 then 8
  else if w <? MonthStart leap 10 then 9
  else if w <? MonthStart leap 11 then 10
  else 11.

(** DateFromTime, 1 = first day of the month. *)
Definition DateFromDay (d : Z) : Z :=
  DayWithinYear d - MonthStart (InLeapYear (YearFromDay d)) (MonthFromDay d) + 1.

Inductive Date : Type :=
| InvalidDate
| DateValue (day : Z).

(** A time value is at most 8.64e15 ms from the epoch: 10^8 days. *)
Definition maxDay : Z := 100000000.

(** The engine (V8) computes MakeDay only for years within a million of 0
    and month indices within ten million of 0, and gives NaN otherwise. *)
Definition maxYear : Z := 1000000.
Definition maxMonth : Z := 10000000.

(** [new Date(year, month, date)]; a year in 0..99 means 1900 + year. *)
Definition newDate (year month date : Z) : Date :=
  let yr := if (0 <=? year) && (year <=? 99) then 1900 + year else year in
  if (Z.abs yr <=? maxYear) && (Z.abs month <=? maxMonth) then
    let day := MakeDay yr month date in
    if Z.abs day <=? maxDay then DateValue day else InvalidDate
  else InvalidDate.

(** [d.toString() === 'Invalid Date'] *)
Definition isInvalid (d : Date) : bool :=
  match d with InvalidDate => true | DateValue _ => false end.

(** [d.getFullYear()]; [None] is NaN. *)
Definition getFullYear (d : Date) : option Z :=
  match d with
  | InvalidDate => None
  | DateValue day => Some (YearFromDay day)
  end.

Definition getMonth (d : Date) : option Z :=
  match d with
  | InvalidDate => None
  | DateValue day => Some (MonthFromDay day)
  end.

Definition getDate (d : Date) : option Z :=
  match d with
  | InvalidDate => None
  | DateValue day => Some (DateFromDay day)
  end.

End JSDate.

(* ===================================================================== *)
(** ** Data model *)
(* ===================================================================== *)

(** The snapshot attached to every product: [{ date, rates }]. *)
Record ExchangeRates : Type := mkExchangeRates {
  xr_date : string;
  xr_rates : gmap string JS.Number
}.

(** A row as csv-parser emits it with [headers: ['name','price','expiration']]:
    cell 0 is [data.name], cell 1 is [data.price], cell 2 is
    [data.expiration], further cells are [data._3], [data._4], ...; a cell
    that the line does not have is [undefined]. *)
Definition Row : Type := list string.

Definition row_name (data : Row) : option string := data !! 0%nat.
Definition row_price (data : Row) : option string := data !! 1%nat.
Definition row_expiration (data : Row) : option string := data !! 2%nat.

Record ProductDTO : Type := mkProduct {
  name : string;
  price : JS.Number;
  expiration : JSDate.Date;
  exchangeRates : ExchangeRates
}.

(** An entry of the [errors] array: [{ row, error, line }]. *)
Record ValidationError : Type := mkError {
  row : Row;
  error : string;
  line : nat
}.

(* ===================================================================== *)
(** ** The csv-parser stream, for input without quote characters *)
(* ===================================================================== *)

Module CsvParser.

Definition LF : ascii := ascii_of_nat 10.
Definition CR : ascii := ascii_of_nat 13.

(** Drops one trailing carriage return. *)
Fixpoint chomp_cr (s : string) : string :=
  match s with
  | String c EmptyString => if Ascii.eqb c CR then EmptyString else s
  | String c s' => String c (chomp_cr s')
  | EmptyString => EmptyString
  end.

(** The lines of the input: every line feed ends a line, and what follows
    the last line feed is a line when it is not empty. *)
Definition lines (input : string) : list string :=
  let segs := JS.split LF input in
  let body := List.removelast segs in
  let tail := List.last segs EmptyString in
  map chomp_cr (if String.eqb tail EmptyString then body else body ++ [tail]).

(** The cells of a line; an empty line has no cell. *)
Definition parseLine (separator : ascii) (l : string) : list string :=
  if String.eqb l EmptyString then [] else JS.split separator l.

(** [csv({ separator, headers: [...], mapValues: v => v.trim(), skipLines })]:
    the header names are given, so no line is read as a header; the first
    [skipLines] lines are dropped and every other line is a row. *)
Definition rows (separator : ascii) (skipLines : nat) (input : string)
  : list Row :=
  map (fun l => map JS.trim (parseLine separator l)) (skipn skipLines (lines input)).

End CsvParser.

(* ===================================================================== *)
(** ** Parsing and validation: the ['data'] handler *)
(* ===================================================================== *)

(** [!s] for a cell: [undefined] and the empty string are falsy. *)
Definition falsy (s : option string) : bool :=
  match s with
  | None => true
  | Some v => String.eqb v EmptyString
  end.

Definition is_cell (s : option string) (v : string) : bool :=
  match s with
  | Some w => String.eqb w v
  | None => false
  end.

(** [parseFloat(data.price.replace('$', '').replace(',', '').trim())] *)
Definition parsePrice (cell : string) : JS.Number :=
  JS.parseFloat (JS.trim (JS.replace_first "," (JS.replace_first "$" cell))).

(** The guard at the top of the handler: a row that repeats the header. *)
Definition isHeaderRow (data : Row) : bool :=
  is_cell (row_name data) "name" && is_cell (row_price data) "price"
  && is_cell (row_expiration data) "expiration".

(** What the handler does with one row. *)
Inductive RowOutcome : Type :=
| HeaderRow
| Invalid (reason : string)
| Valid (product : ProductDTO).

(** The body of the [try] block of the handler.  Every operation in it is
    total on the strings that the parser delivers, so its [catch] clause
    (which would record [error.message]) is never entered. *)
Definition validateRow (rates : ExchangeRates) (data : Row) : RowOutcome :=
  if isHeaderRow data
  then HeaderRow
  else
    if falsy (row_name data) || falsy (row_price data)
       || falsy (row_expiration data)
    then Invalid "Missing required fields"
    else
      let data_name := default EmptyString (row_name data) in
      let data_price := default EmptyString (row_price data) in
      let data_expiration := default EmptyString (row_expiration data) in
      let price := parsePrice data_price in
      if JS.isNaN price
      then Invalid ("Invalid price format: " ++ data_price)
      else
        match map JS.parseInt (JS.split "/" data_expiration) with
        | [m; d; y] =>
            match m, d, y with
            | Some month, Some day, Some year =>
                let expiration := JSDate.newDate year (month - 1) day in
                if JSDate.isInvalid expiration
                   || negb (bool_decide (JSDate.getFullYear expiration = Some year))
                then Invalid ("Invalid date: " ++ data_expiration)
                else Valid {| name := JS.trim data_name;
                              price := price;
                              expiration := expiration;
                              exchangeRates := rates |}
            | _, _, _ => Invalid ("Invalid date numbers: " ++ data_expiration)
            end
        | _ =>
            Invalid ("Invalid date format. Expected MM/DD/YYYY: "
                     ++ data_expiration)
        end.

(** The variables that the handler closes over. *)
Record ParseState : Type := mkParseState {
  lineCount : nat;
  processedCount : nat;
  successCount : nat;
  results : list ProductDTO;
  errors : list ValidationError
}.

Definition initialParseState : ParseState :=
  {| lineCount := 0; processedCount := 0; successCount := 0;
     results := []; errors := [] |}.

(** One ['data'] event. *)
Definition on_data (rates : ExchangeRates) (st : ParseState) (data : Row)
  : ParseState :=
  let lc := S (lineCount st) in
  let pc := S (processedCount st) in
  match validateRow rates data with
  | HeaderRow =>
      {| lineCount := lc; processedCount := pc;
         successCount := successCount st;
         results := results st; errors := errors st |}
  | Invalid reason =>
      {| lineCount := lc; processedCount := pc;
         successCount := successCount st;
         results := results st;
         errors := errors st ++ [ {| row := data; error := reason; line := lc |} ] |}
  | Valid product =>
      {| lineCount := lc; processedCount := pc;
         successCount := S (successCount st);
         results := results st ++ [product];
         errors := errors st |}
  end.

(** The state when the stream ends: the handler has run on every row. *)
Definition parseRows (rates : ExchangeRates) (rs : list Row) : ParseState :=
  fold_left (on_data rates) rs initialParseState.

(* ===================================================================== *)
(** ** Effects: the stores the services write to, and failures *)
(* ===================================================================== *)

(** The outcome of an awaited call: a value, or a thrown [Error]. *)
Inductive Result (A : Type) : Type :=
| Ok (value : A)
| Err (message : string).
Arguments Ok {A} value.
Arguments Err {A} message.

(** [{ date, rates }] as the provider answer is cached. *)
Record RatesData : Type := mkRatesData {
  rd_date : string;
  rd_rates : gmap string JS.Number
}.

(** The body of a queue message, [{ filePath, timestamp, retryCount? }]. *)
Record Content : Type := mkContent {
  filePath : string;
  timestamp : string;
  retryCount : option Z
}.

(** A delivery: the body, [properties.headers] (numeric headers only) and the
    [redelivered] flag that the broker sets. *)
Record Message : Type := mkMessage {
  content : Content;
  headers : option (gmap string Z);
  redelivered : bool
}.

(** A request that reached the datastore. *)
Inductive DbOp : Type :=
| DeleteMany
| InsertMany (batchNumber : nat) (batch : list ProductDTO)
             (insertedCount : nat) (failed : bool).

(** Everything outside the process that the pipeline reads and writes. *)
Record Store : Type := mkStore {
  cache : option RatesData;         (* redis key [exchange_rates] *)
  batch_keys : list (string * nat); (* redis keys [batch_<n>], with their size *)
  catalog : list ProductDTO;        (* the products collection *)
  db_log : list DbOp;               (* requests to the datastore, oldest first *)
  files : gmap string string;       (* the file system *)
  queue : list Message              (* [csv_processing_queue] *)
}.

Definition set_cache (c : option RatesData) (s : Store) : Store :=
  {| cache := c; batch_keys := batch_keys s; catalog := catalog s;
     db_log := db_log s; files := files s; queue := queue s |}.
Definition set_batch_keys (b : list (string * nat)) (s : Store) : Store :=
  {| cache := cache s; batch_keys := b; catalog := catalog s;
     db_log := db_log s; files := files s; queue := queue s |}.
Definition set_catalog (c : list ProductDTO) (s : Store) : Store :=
  {| cache := cache s; batch_keys := batch_keys s; catalog := c;
     db_log := db_log s; files := files s; queue := queue s |}.
Definition set_db_log (l : list DbOp) (s : Store) : Store :=
  {| cache := cache s; batch_keys := batch_keys s; catalog := catalog s;
     db_log := l; files := files s; queue := queue s |}.
Definition set_files (f : gmap string string) (s : Store) : Store :=
  {| cache := cache s; batch_keys := batch_keys s; catalog := catalog s;
     db_log := db_log s; files := f; queue := queue s |}.
Definition set_queue (q : list Message) (s : Store) : Store :=
  {| cache := cache s; batch_keys := batch_keys s; catalog := catalog s;
     db_log := db_log s; files := files s; queue := q |}.

(** What [channel.publish] does. *)
Inductive PublishOutcome : Type :=
| Published          (* returns true *)
| BufferFull         (* returns false *)
| ChannelClosed.     (* throws *)

(** How the collaborators answer during one run. *)
Record Env : Type := mkEnv {
  now_iso : string;                          (* [new Date().toISOString()] *)
  now_ms : string;                           (* [Date.now()] *)
  tmpdir : string;                           (* [os.tmpdir()] *)
  provider : option (gmap string JS.Number); (* the rates of the HTTP answer *)
  redis_up : bool;                           (* redis answers *)
  deleteMany_ok : bool;                      (* [deleteMany({})] resolves *)
  insert_accepts : nat -> ProductDTO -> bool;(* the write of a document of
                                                batch [n] succeeds *)
  fs_write_ok : bool;                        (* [writeFileSync] succeeds *)
  isConnected : bool;                        (* the service's flag *)
  connectionPromise : Result unit;           (* how [connect()] settled *)
  publish : PublishOutcome
}.

(** State and failure monad. *)
Definition M (A : Type) : Type := Store -> Result A * Store.

Definition ret {A} (a : A) : M A := fun s => (Ok a, s).
Definition throw {A} (msg : string) : M A := fun s => (Err msg, s).
Definition bind {A B} (m : M A) (k : A -> M B) : M B :=
  fun s => match m s with
           | (Ok a, s') => k a s'
           | (Err e, s') => (Err e, s')
           end.
Definition try_catch {A} (m : M A) (handler : string -> M A) : M A :=
  fun s => match m s with
           | (Ok a, s') => (Ok a, s')
           | (Err e, s') => handler e s'
           end.
Definition get_store : M Store := fun s => (Ok s, s).
Definition modify (f : Store -> Store) : M unit := fun s => (Ok tt, f s).

Notation "'let*' x ':=' m 'in' k" := (bind m (fun x => k))
  (at level 10, x pattern, m at level 100, k at level 200).

(* ===================================================================== *)
(** ** Currency enrichment (exchange-rates.service.ts, redis.service.ts) *)
(* ===================================================================== *)

(** [redisService.get('exchange_rates')].  The only writer of the key is
    [getExchangeRates], which stores the serialised [{ date, rates }]; the
    read parses it back.  A redis failure is caught and reads as [null]. *)
Definition redis_get_rates (env : Env) : M (option RatesData) :=
  let* s := get_store in
  ret (if redis_up env then cache s else None).

(** [redisService.set('exchange_rates', ..., 3600)]; never throws. *)
Definition redis_set_rates (env : Env) (r : RatesData) : M bool :=
  if redis_up env
  then let* _ := modify (set_cache (Some r)) in ret true
  else ret false.

Definition getExchangeRates (env : Env) : M RatesData :=
  let* cachedRates := redis_get_rates env in
  match cachedRates with
  | Some r => ret r
  | None =>
      match provider env with
      | Some rates =>
          let ratesData := {| rd_date := now_iso env; rd_rates := rates |} in
          let* _ := redis_set_rates env ratesData in
          ret ratesData
      | None => throw "Failed to fetch exchange rates"
      end
  end.

(** A number in a condition: NaN and zero are falsy. *)
Definition truthy (n : JS.Number) : bool :=
  match n with
  | JS.NaN => false
  | JS.Infinity _ => true
  | JS.Finite m _ => negb (m =? 0)
  end.

Definition selectedCurrencies : list string :=
  ["EUR"; "GBP"; "JPY"; "CAD"; "AUD"; "BRL"].

Definition getSelectedCurrencies (rates : gmap string JS.Number)
  : gmap string JS.Number :=
  fold_left
    (fun selectedRates currency =>
       match rates !! currency with
       | Some r => if truthy r then <[currency := r]> selectedRates
                   else selectedRates
       | None => selectedRates
       end)
    selectedCurrencies ∅.

(* ===================================================================== *)
(** ** Batch persistence: [processProductsInBatches] *)
(* ===================================================================== *)

Definition batchSize : nat := 1000.

(** [productModel.deleteMany({})]. *)
Definition deleteMany (env : Env) : M unit :=
  let* _ := modify (fun s => set_db_log (db_log s ++ [DeleteMany]) s) in
  if deleteMany_ok env
  then modify (set_catalog [])
  else throw "deleteMany failed".

(** [productModel.insertMany(batch, { ordered: false })]: every document whose
    write succeeds is stored, and the call throws when some write failed.
    The schema declares no unique index, so whether a write succeeds does not
    depend on the documents already stored. *)
Definition insertMany (env : Env) (batchNumber : nat) (batch : list ProductDTO)
  : M unit :=
  let inserted := List.filter (insert_accepts env batchNumber) batch in
  let failed := negb (forallb (insert_accepts env batchNumber) batch) in
  let* _ :=
    modify (fun s =>
      set_db_log
        (db_log s ++ [InsertMany batchNumber batch (length inserted) failed])
        (set_catalog (catalog s ++ inserted) s)) in
  if failed then throw "insertMany failed" else ret tt.

(** [redisService.set(`batch_${batchNumber}`, ...)]; never throws. *)
Definition redis_set_batch (env : Env) (batchNumber size : nat) : M bool :=
  if redis_up env
  then
    let* _ :=
      modify (fun s =>
        set_batch_keys
          (batch_keys s ++ [("batch_" ++ pretty batchNumber, size)]) s) in
    ret true
  else ret false.

(** [products.slice(i, i + batchSize)] *)
Definition slice (products : list ProductDTO) (i j : nat) : list ProductDTO :=
  take (j - i) (drop i products).

(** The body of the [for] loop: the inner [try] with its [catch]. *)
Definition insertBatch (env : Env) (products : list ProductDTO) (i : nat)
  : M unit :=
  let batch := slice products i (i + batchSize) in
  let batchNumber := (i / batchSize + 1)%nat in
  try_catch
    (let* _ := insertMany env batchNumber batch in
     let* _ := redis_set_batch env batchNumber (length batch) in
     ret tt)
    (fun batchError => ret tt).

(** [for (let i = start; i < products.length; i += batchSize) { ... }] *)
Equations? batchLoop (env : Env) (products : list ProductDTO) (i : nat)
  : M unit by wf (length products - i)%nat lt :=
  batchLoop env products i with decide (i < length products)%nat := {
    | left _ =>
        bind (insertBatch env products i)
             (fun _ => batchLoop env products (i + batchSize)%nat)
    | right _ => ret tt }.
Proof. unfold batchSize. lia. Qed.

Definition processProductsInBatches (env : Env) (products : list ProductDTO)
  : M unit :=
  try_catch
    (let* _ := deleteMany env in
     batchLoop env products 0%nat)
    (fun error => throw error).

(* ===================================================================== *)
(** ** The pipeline: [processCSVFileWithMetrics], [processCSVFileFromBuffer] *)
(* ===================================================================== *)

(** What the pipeline resolves with: [{ successCount, errors }]. *)
Record PipelineResult : Type := mkPipelineResult {
  res_successCount : nat;
  res_errors : list ValidationError
}.

(** The snapshot is fetched before the stream is opened; a failure rejects. *)
Definition fetchSnapshot (env : Env) : M ExchangeRates :=
  try_catch
    (let* ratesData := getExchangeRates env in
     let selectedRates := getSelectedCurrencies (rd_rates ratesData) in
     ret {| xr_date := rd_date ratesData; xr_rates := selectedRates |})
    (fun error => throw error).

(** The ['end'] handler. *)
Definition on_end (env : Env) (st : ParseState) : M PipelineResult :=
  try_catch
    (let* _ :=
       if (0 <? length (results st))%nat
       then processProductsInBatches env (results st)
       else ret tt in
     ret {| res_successCount := successCount st; res_errors := errors st |})
    (fun error => throw error).

(** The two functions have the same body and differ in the byte source only:
    [open] yields the bytes, or fails, in which case the run has no result. *)
Definition processCSVStream (env : Env) (open : M string) : M PipelineResult :=
  let* exchangeRates := fetchSnapshot env in
  let* input := open in
  on_end env (parseRows exchangeRates (CsvParser.rows ";" 1 input)).

(** [fs.createReadStream(path)].  The callers check that the file exists
    before they start the pipeline. *)
Definition createReadStream (path : string) : M string :=
  let* s := get_store in
  match files s !! path with
  | Some bytes => ret bytes
  | None => throw ("ENOENT: no such file or directory, open '" ++ path ++ "'")
  end.

Definition processCSVFileWithMetrics (env : Env) (csvFilePath : string)
  : M PipelineResult :=
  processCSVStream env (createReadStream csvFilePath).

Definition processCSVFileFromBuffer (env : Env) (buffer : string)
  : M PipelineResult :=
  processCSVStream env (ret buffer).

(* ===================================================================== *)
(** ** The queue client in use (rabbitmq.service.ts) *)
(* ===================================================================== *)

(** How the consumer settles a delivery. *)
Inductive Settlement : Type :=
| Ack
| Nack (requeue : bool).

Module RabbitMQService.

Definition ensureConnected (env : Env) : M unit :=
  if isConnected env then ret tt
  else
    match connectionPromise env with
    | Err e => throw e
    | Ok _ => throw "RabbitMQ not connected after waiting"
    end.

(** [channel.publish(...)]: the message is handed to the channel whenever the
    call returns, with [true] or with [false]; a closed channel throws. *)
Definition channel_publish (env : Env) (m : Message) : M bool :=
  match publish env with
  | Published =>
      let* _ := modify (fun s => set_queue (queue s ++ [m]) s) in ret true
  | BufferFull =>
      let* _ := modify (fun s => set_queue (queue s ++ [m]) s) in ret false
  | ChannelClosed => throw "Channel closed"
  end.

Definition sendToCsvQueue (env : Env) (path : string) : M bool :=
  try_catch
    (let* _ := ensureConnected env in
     let message :=
       {| filePath := path; timestamp := now_iso env; retryCount := None |} in
     let* sent :=
       channel_publish env
         {| content := message; headers := None; redelivered := false |} in
     if sent then ret true else ret false)
    (fun error => ret false).

Definition waitForConnection (env : Env) : M bool :=
  try_catch
    (let* _ := ensureConnected env in ret true)
    (fun _ => ret false).

(** The callback that [consumeCsvQueue] registers on the channel. *)
Definition onMessage (processor : Content -> M unit) (message : Message)
  : M Settlement :=
  try_catch
    (let* _ := processor (content message) in ret Ack)
    (fun error => ret (Nack false)).

(** [consumeCsvQueue(processor)]: once connected, the callback is registered
    for [csv_processing_queue] with [noAck: false]; the result is the
    callback that the broker will call. *)
Definition consumeCsvQueue (env : Env) (processor : Content -> M unit)
  : M (Message -> M Settlement) :=
  try_catch
    (let* _ := ensureConnected env in ret (onMessage processor))
    (fun error => throw error).

End RabbitMQService.

(* ===================================================================== *)
(** ** The second queue client (rabbitmq.config.ts) *)
(* ===================================================================== *)

Module RabbitMQConfig.

(** The message that its [sendToCsvQueue] publishes: the counter is a field
    of the body, and no header is set. *)
Definition message_for (env : Env) (path : string) : Message :=
  {| content := {| filePath := path; timestamp := now_iso env;
                   retryCount := Some 0 |};
     headers := None;
     redelivered := false |}.

(** [(message.properties.headers?.['x-retry-count'] || 0) + 1] *)
Definition nextRetryCount (message : Message) : Z :=
  match headers message with
  | Some h => default 0 (h !! "x-retry-count")
  | None => 0
  end + 1.

(** The callback that its [consumeCsvQueue] registers on the channel. *)
Definition onMessage (processor : Content -> M unit) (message : Message)
  : M Settlement :=
  try_catch
    (let* _ := processor (content message) in ret Ack)
    (fun error =>
       let retryCount := nextRetryCount message in
       if retryCount <=? 3 then ret (Nack true) else ret (Nack false)).

End RabbitMQConfig.

(** The broker delivers the message at the head of the queue to the callback
    and applies the settlement: an acknowledged message and a message
    rejected without requeue leave the queue (no dead-letter exchange is
    declared); a message rejected with requeue returns to its place as it
    was published, marked as redelivered. *)
Definition deliver (callback : Message -> M Settlement) : M (option Settlement) :=
  let* s := get_store in
  match queue s with
  | [] => ret None
  | m :: rest =>
      let* _ := modify (set_queue rest) in
      let* settlement := callback m in
      let* _ :=
        match settlement with
        | Nack true =>
            modify (fun s' =>
              set_queue ({| content := content m; headers := headers m;
                            redelivered := true |} :: queue s') s')
        | _ => ret tt
        end in
      ret (Some settlement)
  end.

(** [n] deliveries in a row. *)
Fixpoint deliveries (callback : Message -> M Settlement) (n : nat)
  : M (list Settlement) :=
  match n with
  | O => ret []
  | S n' =>
      let* r := deliver callback in
      match r with
      | None => ret []
      | Some a => let* l := deliveries callback n' in ret (a :: l)
      end
  end.

(* ===================================================================== *)
(** ** The orchestrator (products.service.ts) *)
(* ===================================================================== *)

Definition existsSync (path : string) : M bool :=
  let* s := get_store in ret (bool_decide (is_Some (files s !! path))).

Definition writeFileSync (env : Env) (path bytes : string) : M unit :=
  if fs_write_ok env
  then modify (fun s => set_files (<[path := bytes]> (files s)) s)
  else throw ("EACCES: permission denied, open '" ++ path ++ "'").

Definition unlinkSync (path : string) : M unit :=
  let* s := get_store in
  match files s !! path with
  | Some _ => modify (fun s' => set_files (delete path (files s')) s')
  | None => throw ("ENOENT: no such file or directory, unlink '" ++ path ++ "'")
  end.

(** The processor that [setupQueueConsumer] hands to [consumeCsvQueue].  The
    loop that waits for the staged file re-reads the same file system, so it
    ends as its last check does.  The result record written to redis under
    [csv_result_<now>] is not read by the pipeline and is left out. *)
Definition processor (env : Env) (message : Content) : M unit :=
  try_catch
    (if String.eqb (filePath message) EmptyString then ret tt
     else
       let* present := existsSync (filePath message) in
       if negb present then throw "Temporary file missing"
       else
         let* result := processCSVFileWithMetrics env (filePath message) in
         let* still := existsSync (filePath message) in
         if still then unlinkSync (filePath message) else ret tt)
    (fun error => throw error).

(** [Express.Multer.File]: the uploaded bytes and the client's file name. *)
Record UploadedFile : Type := mkUploadedFile {
  buffer : option string;
  originalname : string
}.

(** What the upload endpoint returns: [{ processed, errors }]. *)
Record UploadSummary : Type := mkUploadSummary {
  processed : nat;
  summary_errors : nat
}.

Definition summary_of (r : PipelineResult) : UploadSummary :=
  {| processed := res_successCount r;
     summary_errors := length (res_errors r) |}.

(** [path.join(os.tmpdir(), `uploaded_${Date.now()}_${file.originalname}`)] *)
Definition tempFilePathOf (env : Env) (f : UploadedFile) : string :=
  tmpdir env ++ "/uploaded_" ++ now_ms env ++ "_" ++ originalname f.

(** The temp directory exists, so the [mkdirSync] branch is not taken. *)
Definition processCSVFromUpload (env : Env) (file : option UploadedFile)
  : M UploadSummary :=
  match file with
  | None => throw "No file data provided"
  | Some f =>
      match buffer f with
      | None => throw "No file data provided"
      | Some bytes =>
          let* connected := RabbitMQService.waitForConnection env in
          if negb connected then
            let* result := processCSVFileFromBuffer env bytes in
            ret (summary_of result)
          else
            let tempFilePath := tempFilePathOf env f in
            try_catch
              (let* _ := writeFileSync env tempFilePath bytes in
               let* sent := RabbitMQService.sendToCsvQueue env tempFilePath in
               if sent then ret {| processed := 0; summary_errors := 0 |}
               else
                 let* result := processCSVFileFromBuffer env bytes in
                 let* _ := unlinkSync tempFilePath in
                 ret (summary_of result))
              (fun error => throw ("Failed to process file: " ++ error))
      end
  end.

(* ===================================================================== *)
(** ** The import from the load-test file (products.service.ts) *)
(* ===================================================================== *)

(** What [processCSVFileSync] returns: [{ success, errors, message }]. *)
Record SyncResult : Type := mkSyncResult {
  sync_success : nat;
  sync_errors : nat;
  sync_message : string
}.

Definition processCSVFileSync (env : Env) (csvFilePath : string)
  : M SyncResult :=
  try_catch
    (let* result := processCSVFileWithMetrics env csvFilePath in
     ret {| sync_success := res_successCount result;
            sync_errors := length (res_errors result);
            sync_message :=
              "CSV processed synchronously. Success: "
              ++ pretty (res_successCount result) ++ ", Errors: "
              ++ pretty (length (res_errors result)) |})
    (fun error =>
       ret {| sync_success := 0; sync_errors := 1;
              sync_message := "CSV processing failed" |}).

(** [path.join(process.cwd(), 'test/load/data', 'products-200000.csv')] *)
Definition loadTestFile (cwd : string) : string :=
  cwd ++ "/test/load/data/products-200000.csv".

Definition syncMessage (result : SyncResult) : string :=
  "CSV processed synchronously. Success: " ++ pretty (sync_success result)
  ++ ", Errors: " ++ pretty (sync_errors result).

(** [processCSVFromFile()], in a process whose working directory is [cwd]. *)
Definition processCSVFromFile (env : Env) (cwd : string) : M string :=
  let csvFilePath := loadTestFile cwd in
  let* present := existsSync csvFilePath in
  if negb present then throw ("CSV file not found at: " ++ csvFilePath)
  else
    let* connected := RabbitMQService.waitForConnection env in
    if negb connected then
      let* result := processCSVFileSync env csvFilePath in
      ret (syncMessage result)
    else
      let* sent := RabbitMQService.sendToCsvQueue env csvFilePath in
      if sent then ret "CSV sent for background processing via RabbitMQ."
      else
        let* result := processCSVFileSync env csvFilePath in
        ret (syncMessage result).

(* ===================================================================== *)
(** ** Reconnection of the second queue client (rabbitmq.config.ts) *)
(* ===================================================================== *)

Module Reconnect.

(** The fields that the connection code writes, and the delays of the
    timers it has set with [setTimeout], oldest first. *)
Record Client : Type := mkClient {
  connected : bool;
  reconnectAttempts : nat;
  timers : list nat
}.

Definition maxReconnectAttempts : nat := 5.
Definition reconnectDelay : nat := 5000.

Definition initial : Client :=
  {| connected := false; reconnectAttempts := 0; timers := [] |}.

Definition disconnected (c : Client) : Client :=
  {| connected := false; reconnectAttempts := reconnectAttempts c;
     timers := timers c |}.

Definition scheduleReconnect (c : Client) : Client :=
  if (maxReconnectAttempts <=? reconnectAttempts c)%nat then c
  else
    let attempts := S (reconnectAttempts c) in
    {| connected := connected c; reconnectAttempts := attempts;
       timers := timers c ++ [(reconnectDelay * attempts)%nat] |}.

(** The blocks of code that write the fields: the end of a successful
    [_doConnect], its [catch] clause, and the two handlers registered on
    the connection.  Each runs to completion before another starts. *)
Inductive Event : Type :=
| ConnectSucceeded
| ConnectFailed
| ConnectionError
| ConnectionClosed.

Definition step (c : Client) (e : Event) : Client :=
  match e with
  | ConnectSucceeded =>
      {| connected := true; reconnectAttempts := 0; timers := timers c |}
  | ConnectFailed =>
      let c' := disconnected c in
      if (reconnectAttempts c' <? maxReconnectAttempts)%nat
      then scheduleReconnect c'
      else c'
  | ConnectionError => scheduleReconnect (disconnected c)
  | ConnectionClosed => scheduleReconnect (disconnected c)
  end.

Definition run (c : Client) (trace : list Event) : Client :=
  fold_left step trace c.

End Reconnect.

(* ===================================================================== *)
(** ** The rate-limit tracker (ip-based-throttler.guard.ts) *)
(* ===================================================================== *)

Module IpBasedThrottlerGuard.

(** What the guard reads of a request. *)
Record Request : Type := mkRequest {
  x_forwarded_for : option string;   (* [req.headers['x-forwarded-for']] *)
  x_real_ip : option string;         (* [req.headers['x-real-ip']] *)
  remoteAddress : option string      (* [req.connection?.remoteAddress] *)
}.

(** [s.startsWith(p)], with what follows the prefix. *)
Fixpoint strip_prefix (p s : string) : option string :=
  match p, s with
  | EmptyString, _ => Some s
  | String a p', String b s' =>
      if Ascii.eqb a b then strip_prefix p' s' else None
  | String _ _, EmptyString => None
  end.

(** [s.replace(p, '')] with a string pattern: the first occurrence goes. *)
Fixpoint replaceFirst (p s : string) : string :=
  match strip_prefix p s with
  | Some rest => rest
  | None =>
      match s with
      | String c s' => String c (replaceFirst p s')
      | EmptyString => EmptyString
      end
  end.

(** [a || b]: the first operand when it is truthy. *)
Definition or_else (a b : option string) : option string :=
  if falsy a then b else a.

(** [forwarded?.split(',')[0] || realIp || remoteAddress || 'unknown'] *)
Definition trackedIp (req : Request) : string :=
  let first :=
    match x_forwarded_for req with
    | Some forwarded => head (JS.split "," forwarded)
    | None => None
    end in
  default EmptyString
    (or_else (or_else (or_else first (x_real_ip req)) (remoteAddress req))
             (Some "unknown")).

Definition getTracker (req : Request) : string :=
  "csv-upload:" ++ trackedIp req.

(** The message of the exception that [throwThrottlingException] throws. *)
Definition throttlingMessage (req : Request) : string :=
  "Rate limit exceeded for CSV upload from IP: "
  ++ replaceFirst "csv-upload:" (getTracker req)
  ++ ". Please wait before trying again.".

End IpBasedThrottlerGuard.

(* ===================================================================== *)
(** ** Pagination (products.controller.ts, products.service.ts) *)
(* ===================================================================== *)

Module Pagination.

(** [getProducts]: [Math.max(1, page)], [Math.max(1, Math.min(limit, 100))]. *)
Definition controllerPage (page : Z) : Z := Z.max 1 page.
Definition controllerLimit (limit : Z) : Z := Z.max 1 (Z.min limit 100).

(** [findAll]: [Math.max(1, page)], [Math.max(1, Math.min(limit, 1000))]. *)
Definition servicePage (page : Z) : Z := Z.max 1 page.
Definition serviceLimit (limit : Z) : Z := Z.max 1 (Z.min limit 1000).

(** [query.skip((safePage - 1) * safeLimit).limit(safeLimit)] of [findAll],
    on the documents that match the filter, in the order of the sort. *)
Definition queryWindow {A : Type} (matching : list A) (page limit : Z)
  : list A :=
  let safePage := servicePage page in
  let safeLimit := serviceLimit limit in
  take (Z.to_nat safeLimit)
       (drop (Z.to_nat ((safePage - 1) * safeLimit)) matching).

(** The [pagination] object of the answer. *)
Record PageInfo : Type := mkPageInfo {
  pg_page : Z;
  pg_limit : Z;
  pg_total : Z;
  pg_totalPages : Z
}.

(** [Math.ceil(total / limit)] for a positive limit. *)
Definition totalPagesOf (total limit : Z) : Z := (total + limit - 1) / limit.

(** What [getProducts] answers when [findAll] runs its query. *)
Definition getProducts {A : Type} (matching : list A) (page limit : Z)
  : list A * PageInfo :=
  let safePage := controllerPage page in
  let safeLimit := controllerLimit limit in
  (queryWindow matching safePage safeLimit,
   {| pg_page := safePage; pg_limit := safeLimit;
      pg_total := Z.of_nat (length matching);
      pg_totalPages := totalPagesOf (Z.of_nat (length matching)) safeLimit |}).

End Pagination.

(* ===================================================================== *)
(** ** Telemetry (newrelic.service.ts, newrelic.decorators.ts) *)
(* ===================================================================== *)

Module NewRelic.

(** The agent library: whether the service is enabled, how its next calls
    end ([true]: the call throws; none left: the calls succeed), and what
    it has been given. *)
Record Agent : Type := mkAgent {
  enabled : bool;
  failures : list bool;
  metrics : list (string * Z);
  noticed : list string;
  attributes : list string;
  warnings : list string
}.

(** A computation on the stores and the agent. *)
Definition T (A : Type) : Type := Store * Agent -> Result A * (Store * Agent).

Definition tret {A} (a : A) : T A := fun w => (Ok a, w).
Definition tthrow {A} (msg : string) : T A := fun w => (Err msg, w).
Definition tbind {A B} (m : T A) (k : A -> T B) : T B :=
  fun w => match m w with
           | (Ok a, w') => k a w'
           | (Err e, w') => (Err e, w')
           end.
Definition tcatch {A} (m : T A) (handler : string -> T A) : T A :=
  fun w => match m w with
           | (Ok a, w') => (Ok a, w')
           | (Err e, w') => handler e w'
           end.

(** A method of the application: it does not touch the agent. *)
Definition lift {A} (m : M A) : T A :=
  fun w => let '(r, s') := m (fst w) in (r, (s', snd w)).

(** A call into the agent library: it consumes one entry of [failures]. *)
Definition agent_call (record : Agent -> Agent) : T unit :=
  fun w =>
    let a := snd w in
    let rest := tail (failures a) in
    let a' := {| enabled := enabled a; failures := rest; metrics := metrics a;
                 noticed := noticed a; attributes := attributes a;
                 warnings := warnings a |} in
    match failures a with
    | true :: _ => (Err "agent failure", (fst w, a'))
    | _ => (Ok tt, (fst w, record a'))
    end.

Definition warn (msg : string) : T unit :=
  fun w =>
    let a := snd w in
    (Ok tt, (fst w, {| enabled := enabled a; failures := failures a;
                       metrics := metrics a; noticed := noticed a;
                       attributes := attributes a;
                       warnings := warnings a ++ [msg] |})).

Definition isEnabled : T bool := fun w => (Ok (enabled (snd w)), w).

Definition add_metric (name : string) (value : Z) (a : Agent) : Agent :=
  {| enabled := enabled a; failures := failures a;
     metrics := metrics a ++ [(name, value)]; noticed := noticed a;
     attributes := attributes a; warnings := warnings a |}.

Definition add_noticed (error : string) (a : Agent) : Agent :=
  {| enabled := enabled a; failures := failures a; metrics := metrics a;
     noticed := noticed a ++ [error]; attributes := attributes a;
     warnings := warnings a |}.

Definition add_attributes (name : string) (a : Agent) : Agent :=
  {| enabled := enabled a; failures := failures a; metrics := metrics a;
     noticed := noticed a; attributes := attributes a ++ [name];
     warnings := warnings a |}.

Definition recordMetric (name : string) (value : Z) : T unit :=
  tbind isEnabled (fun on =>
  if on then
    tcatch (agent_call (add_metric name value))
           (fun error => warn ("Failed to record metric " ++ name ++ ": " ++ error))
  else tret tt).

Definition recordError (error : string) : T unit :=
  tbind isEnabled (fun on =>
  if on then
    tcatch (agent_call (add_noticed error))
           (fun nrError => warn ("Failed to record error in New Relic: " ++ nrError))
  else tret tt).

(** [MeasureExecutionTime(metricName)] around [method]; [elapsed] is the
    difference of the two readings of the clock. *)
Definition MeasureExecutionTime {A} (metricName : string) (elapsed : Z)
  (method : T A) : T A :=
  tcatch
    (tbind method (fun result =>
     tbind (recordMetric metricName elapsed) (fun _ =>
     tret result)))
    (fun error =>
     tbind (recordMetric metricName elapsed) (fun _ =>
     tbind (recordError error) (fun _ =>
     tthrow error))).

(** [startBackgroundTransaction(name, group, operation)]; the agent runs the
    handler it is given and returns what the handler returns. *)
Definition startBackgroundTransaction {A} (name : string) (operation : T A)
  : T A :=
  tbind isEnabled (fun on =>
  if negb on then operation
  else
    tcatch
      (tbind (agent_call (add_attributes name)) (fun _ => operation))
      (fun error => tbind (recordError error) (fun _ => tthrow error))).

End NewRelic.

(* ===================================================================== *)
(** ** The generator of the load-test files (generate-csv script) *)
(* ===================================================================== *)

Module Generator.

(** Two decimal digits. *)
Definition two_digits (n : N) : string :=
  if (n <? 10)%N then "0" ++ pretty n else pretty n.

(** [x.toFixed(2)] for the number with [cents] hundredths. *)
Definition toFixed2 (cents : N) : string :=
  pretty (cents / 100)%N ++ "." ++ two_digits (cents mod 100)%N.

(** [`$${price}`] *)
Definition priceCell (cents : N) : string := "$" ++ toFixed2 cents.

(** [`${month}/${day}/${year}`] *)
Definition expirationCell (month day year : N) : string :=
  pretty month ++ "/" ++ pretty day ++ "/" ++ pretty year.

(** What the generator can draw: a price from 1.00 to 201.00, a month, a
    day up to 28, and a year from 2023 to 2025. *)
Definition drawn (cents month day year : N) : Prop :=
  (100 <= cents <= 20100 /\ 1 <= month <= 12 /\ 1 <= day <= 28
   /\ 2023 <= year <= 2025)%N.

End Generator.

(* ===================================================================== *)
(** ** Notions used in the statements, and concrete inputs *)
(* ===================================================================== *)

(** The number of rows that repeat the header. *)
Definition headerRows (rs : list Row) : nat :=
  length (List.filter isHeaderRow rs).

(** The files of the examples are written with [nl] for the line feed. *)
Definition nl : string := String CsvParser.LF EmptyString.

(** The number of data rows of a file: the rows the parser emits after the
    header line. *)
Definition dataRowCount (input : string) : nat :=
  length (CsvParser.rows ";" 1 input).

(** A file whose only data row repeats the header. *)
Definition repeated_header_file : string :=
  "name;price;expiration" ++ nl ++ "name;price;expiration".

(** The snapshot that the pipeline attaches, from the cached or fetched data. *)
Definition snapshot_of (r : RatesData) : ExchangeRates :=
  {| xr_date := rd_date r; xr_rates := getSelectedCurrencies (rd_rates r) |}.

(** The cache has no entry to offer. *)
Definition cache_miss (env : Env) (s : Store) : Prop :=
  redis_up env = false \/ cache s = None.

(** The [k]-th batch, counted from 0. *)
Definition batchAt (products : list ProductDTO) (k : nat) : list ProductDTO :=
  slice products (k * batchSize) (k * batchSize + batchSize).

(** [Math.ceil(products.length / batchSize)] *)
Definition totalBatches (products : list ProductDTO) : nat :=
  ((length products + (batchSize - 1)) / batchSize)%nat.

(** What the datastore stores of batch [k]. *)
Definition insertedOf (env : Env) (products : list ProductDTO) (k : nat)
  : list ProductDTO :=
  List.filter (insert_accepts env (k + 1)) (batchAt products k).

(** The insert of batch [k] throws. *)
Definition batchFailed (env : Env) (products : list ProductDTO) (k : nat)
  : bool :=
  negb (forallb (insert_accepts env (k + 1)) (batchAt products k)).

(** The request that the loop sends for batch [k]. *)
Definition batchRecord (env : Env) (products : list ProductDTO) (k : nat)
  : DbOp :=
  InsertMany (k + 1) (batchAt products k)
    (length (insertedOf env products k)) (batchFailed env products k).

(** The store after the loop body has run on batch [k]. *)
Definition afterBatch (env : Env) (products : list ProductDTO) (s : Store)
  (k : nat) : Store :=
  let s1 :=
    set_db_log (db_log s ++ [batchRecord env products k])
      (set_catalog (catalog s ++ insertedOf env products k) s) in
  if negb (batchFailed env products k) && redis_up env
  then set_batch_keys
         (batch_keys s1
          ++ [("batch_" ++ pretty (k + 1)%nat, length (batchAt products k))]) s1
  else s1.

(** The store when [processProductsInBatches] returns. *)
Definition persisted (env : Env) (products : list ProductDTO) (s : Store)
  : Store :=
  fold_left (afterBatch env products) (seq 0 (totalBatches products))
    (set_catalog [] (set_db_log (db_log s ++ [DeleteMany]) s)).

(** What the pipeline resolves with when the stage ended in [st]. *)
Definition result_of (st : ParseState) : PipelineResult :=
  {| res_successCount := successCount st; res_errors := errors st |}.

(** The scenario of the specification. *)
Definition scenario_file : string :=
  "name;price;expiration" ++ nl ++
  "Apple;$10.00;12/31/2024" ++ nl ++
  ";5.00;01/01/2025" ++ nl ++
  "Pear;abc;02/02/2025".

(** The errors that the scenario is to record. *)
Definition scenario_errors : list ValidationError :=
  [ {| row := [EmptyString; "5.00"; "01/01/2025"];
       error := "Missing required fields";
       line := 2 |};
    {| row := ["Pear"; "abc"; "02/02/2025"];
       error := "Invalid price format: abc";
       line := 3 |} ].





(** The batches of the [insertMany] requests of a log, in their order. *)
Definition sentBatches (log : list DbOp) : list (list ProductDTO) :=
  omap (fun op => match op with
                  | InsertMany _ batch _ _ => Some batch
                  | DeleteMany => None
                  end) log.

(** A handler that throws. *)
Definition failing (error : string) : Content -> M unit :=
  fun _ => throw error.

(** A provider answer, and the snapshot cached from it. *)
Definition usd_rates : gmap string JS.Number :=
  <["EUR" := JS.Finite 92 (-2)]> (<["BRL" := JS.Finite 54 (-1)]>
  (<["USD" := JS.Finite 1 0]> ∅)).

Definition cached_snapshot : RatesData :=
  {| rd_date := "2025-09-25T16:41:12.800Z"; rd_rates := usd_rates |}.

(** A product imported earlier. *)
Definition old_product : ProductDTO :=
  {| name := "Chevril";
     price := JS.Finite 1999 (-2);
     expiration := JSDate.DateValue 19782;
     exchangeRates := snapshot_of cached_snapshot |}.

(** The file that the pipeline is run on. *)
Definition products_path : string := "test/load/data/products.csv".

(** A file in which no row is valid. *)
Definition invalid_file : string :=
  "name;price;expiration" ++ nl ++
  "Pear;abc;02/02/2025" ++ nl ++
  "Plum;1.50;2025-02-02".

(** No cache entry, one product in the catalog, the scenario file on disk. *)
Definition cold_store : Store :=
  {| cache := None; batch_keys := []; catalog := [old_product];
     db_log := []; files := {[ products_path := scenario_file ]};
     queue := [] |}.

(** The same with the snapshot cached. *)
Definition warm_store : Store := set_cache (Some cached_snapshot) cold_store.

(** The same with the invalid file on disk. *)
Definition warm_store_invalid : Store :=
  set_files {[ products_path := invalid_file ]} warm_store.

(** Broker down, provider down. *)
Definition offline_env : Env :=
  {| now_iso := "2025-09-25T16:47:18.230Z"; now_ms := "1758818838230";
     tmpdir := "/tmp"; provider := None; redis_up := true;
     deleteMany_ok := true; insert_accepts := fun _ _ => true;
     fs_write_ok := true; isConnected := false;
     connectionPromise := Err "connect ECONNREFUSED 127.0.0.1:5672";
     publish := ChannelClosed |}.

(** Broker connected but its channel closed; the first batch fails. *)
Definition flaky_env : Env :=
  {| now_iso := "2025-09-25T16:47:18.230Z"; now_ms := "1758818838230";
     tmpdir := "/tmp"; provider := Some usd_rates; redis_up := true;
     deleteMany_ok := true;
     insert_accepts := fun batchNumber _ => negb (batchNumber =? 1)%nat;
     fs_write_ok := true; isConnected := true;
     connectionPromise := Ok tt;
     publish := ChannelClosed |}.

(** The scenario file as an upload. *)
Definition upload : UploadedFile :=
  {| buffer := Some scenario_file; originalname := "products.csv" |}.

(** 1001 valid records: two batches. *)
Definition many_products : list ProductDTO := repeat old_product 1001.

(** The environment of a second run: every write succeeds. *)
Definition steady_env : Env :=
  {| now_iso := "2025-09-25T17:00:00.000Z"; now_ms := "1758819600000";
     tmpdir := "/tmp"; provider := None; redis_up := true;
     deleteMany_ok := true; insert_accepts := fun _ _ => true;
     fs_write_ok := true; isConnected := true;
     connectionPromise := Ok tt;
     publish := Published |}.

(* ===================================================================== *)
(** ** Notions used in the further properties *)
(* ===================================================================== *)

(** The product that a row contributes, if it is valid. *)
Definition validProduct (rates : ExchangeRates) (data : Row)
  : option ProductDTO :=
  match validateRow rates data with
  | Valid p => Some p
  | _ => None
  end.

(** The error that the row at index [i] (from 0) contributes, if it is
    invalid. *)
Definition rowError (rates : ExchangeRates) (i : nat) (data : Row)
  : option ValidationError :=
  match validateRow rates data with
  | Invalid reason => Some {| row := data; error := reason; line := S i |}
  | _ => None
  end.

(** The errors of the rows [rs] when [start] rows came before them. *)
Definition errorsFrom (rates : ExchangeRates) (start : nat) (rs : list Row)
  : list ValidationError :=
  omap id (imap (fun i => rowError rates (start + i)) rs).

(** The row is not a header, has its three fields, and its price parses. *)
Definition fieldsAndPriceOk (data : Row) : bool :=
  negb (isHeaderRow data)
  && negb (falsy (row_name data) || falsy (row_price data)
           || falsy (row_expiration data))
  && negb (JS.isNaN (parsePrice (default EmptyString (row_price data)))).

(** The condition under which the handler keeps the date. *)
Definition dateCheck (year month day : Z) : bool :=
  let e := JSDate.newDate year (month - 1) day in
  negb (JSDate.isInvalid e
        || negb (bool_decide (JSDate.getFullYear e = Some year))).

(** The number of occurrences of a character. *)
Fixpoint count_char (c : ascii) (s : string) : nat :=
  match s with
  | String a s' =>
      if Ascii.eqb a c then S (count_char c s') else count_char c s'
  | EmptyString => 0
  end.

(** A string does not start with white space. *)
Definition headOk (s : string) : Prop :=
  match s with
  | String c _ => JS.isWhiteSpace c = false
  | EmptyString => True
  end.

(** Two stores hold the same data: the same cached snapshot, the same
    catalog and the same history of datastore requests. *)
Definition same_data (s t : Store) : Prop :=
  cache s = cache t /\ catalog s = catalog t /\ db_log s = db_log t.

(** A snapshot can be had: from the cache, or from the provider. *)
Definition snapshot_available (env : Env) (s : Store) : Prop :=
  (redis_up env = true /\ is_Some (cache s)) \/ is_Some (provider env).

(** No event of the trace is a successful connect. *)
Definition noSuccess (trace : list Reconnect.Event) : Prop :=
  Forall (fun e => e <> Reconnect.ConnectSucceeded) trace.

(** The next call into the agent throws. *)
Definition nextCallFails (agent : NewRelic.Agent) : bool :=
  match NewRelic.failures agent with
  | true :: _ => true
  | _ => false
  end.

(** The numbers [lo], [lo + 1], ..., [len] of them. *)
Definition N_range (lo : N) (len : nat) : list N :=
  map (fun i => (lo + N.of_nat i)%N) (seq 0 len).

(** The price cell for [cents] parses to that many hundredths. *)
Definition priceParses (cents : N) : bool :=
  match parsePrice (Generator.priceCell cents) with
  | JS.Finite m e => (m =? Z.of_N cents) && (e =? -2)
  | _ => false
  end.

(** The expiration cell for a month, a day and a year splits into these
    three numbers, and the date built from them is that day of that month
    of that year. *)
Definition dateParses (month day year : N) : bool :=
  match map JS.parseInt (JS.split "/" (Generator.expirationCell month day year)) with
  | [Some m; Some d; Some y] =>
      (m =? Z.of_N month) && (d =? Z.of_N day) && (y =? Z.of_N year)
  | _ => false
  end
  && match JSDate.newDate (Z.of_N year) (Z.of_N month - 1) (Z.of_N day) with
     | JSDate.DateValue dd =>
         (JSDate.YearFromDay dd =? Z.of_N year)
         && (JSDate.MonthFromDay dd =? Z.of_N month - 1)
         && (JSDate.DateFromDay dd =? Z.of_N day)
     | JSDate.InvalidDate => false
     end
  && negb (String.eqb (Generator.expirationCell month day year) EmptyString).

(** A datastore that refuses every document. *)
Definition refusing_env : Env :=
  {| now_iso := "2025-09-25T17:00:00.000Z"; now_ms := "1758819600000";
     tmpdir := "/tmp"; provider := None; redis_up := true;
     deleteMany_ok := true; insert_accepts := fun _ _ => false;
     fs_write_ok := true; isConnected := true;
     connectionPromise := Ok tt;
     publish := Published |}.

(** A datastore whose collection cannot be cleared. *)
Definition locked_env : Env :=
  {| now_iso := "2025-09-25T17:00:00.000Z"; now_ms := "1758819600000";
     tmpdir := "/tmp"; provider := None; redis_up := true;
     deleteMany_ok := false; insert_accepts := fun _ _ => true;
     fs_write_ok := true; isConnected := true;
     connectionPromise := Ok tt;
     publish := Published |}.

(** The working directory of the server, and stores with the load-test file
    in it. *)
Definition server_cwd : string := "/srv/fluxstore/backend".

Definition load_store : Store :=
  set_files {[ loadTestFile server_cwd := scenario_file ]} warm_store.

Definition cold_load_store : Store :=
  set_files {[ loadTestFile server_cwd := scenario_file ]} cold_store.

(** The product of the first row of the scenario. *)
Definition apple : ProductDTO :=
  {| name := "Apple";
     price := JS.Finite 1000 (-2);
     expiration := JSDate.DateValue 20088;
     exchangeRates := snapshot_of cached_snapshot |}.

(** A message whose body has no file path. *)
Definition pathless_message : Message :=
  {| content := {| filePath := EmptyString;
                   timestamp := "2025-09-25T17:00:00.000Z";
                   retryCount := None |};
     headers := None; redelivered := false |}.

(** A request that came through a proxy. *)
Definition proxied_request : IpBasedThrottlerGuard.Request :=
  {| IpBasedThrottlerGuard.x_forwarded_for := Some "203.0.113.7, 10.0.0.1";
     IpBasedThrottlerGuard.x_real_ip := Some "10.0.0.1";
     IpBasedThrottlerGuard.remoteAddress := Some "::ffff:10.0.0.1" |}.

(* ===================================================================== *)
(** * Properties *)
(* ===================================================================== *)

(** ** Dates *)

(** [YearFromDay] is the year that the day falls in. *)
Lemma YearFromDay_spec (d : Z) :
  JSDate.DayFromYear (JSDate.YearFromDay d) <= d
  < JSDate.DayFromYear (JSDate.YearFromDay d + 1).
Proof.
  unfold JSDate.YearFromDay, JSDate.DayFromYear.
  repeat match goal with
         | |- context [ if ?b then _ else _ ] => destruct b eqn:?
         end;
    Z.div_mod_to_equations; lia.
Qed.

(** The year is unique, so [YearFromDay] is determined by its bounds. *)
Lemma YearFromDay_unique (d y : Z) :
  JSDate.DayFromYear y <= d < JSDate.DayFromYear (y + 1) ->
  JSDate.YearFromDay d = y.
Proof.
  intros Hy. pose proof (YearFromDay_spec d) as Hs.
  assert (mono : forall a b, a < b ->
            JSDate.DayFromYear (a + 1) <= JSDate.DayFromYear b).
  { intros a b Hab. unfold JSDate.DayFromYear.
    Z.div_mod_to_equations; lia. }
  destruct (Z.lt_trichotomy (JSDate.YearFromDay d) y) as [Hlt | [Heq | Hgt]].
  - specialize (mono _ _ Hlt). lia.
  - exact Heq.
  - specialize (mono _ _ Hgt). lia.
Qed.

(** ** The validator *)

Lemma validateRow_header (rates : ExchangeRates) (data : Row) :
  validateRow rates data = HeaderRow <-> isHeaderRow data = true.
Proof.
  unfold validateRow. split.
  - destruct (isHeaderRow data); [reflexivity|].
    repeat case_match; discriminate.
  - intros ->. reflexivity.
Qed.

(** A row that is accepted carries the date built from its three numbers,
    and that date lies in the year that was written. *)
Lemma valid_row_year_round_trips (rates : ExchangeRates) (data : Row)
  (p : ProductDTO) :
  validateRow rates data = Valid p ->
  exists cell month day year,
    row_expiration data = Some cell /\
    map JS.parseInt (JS.split "/" cell) = [Some month; Some day; Some year] /\
    expiration p = JSDate.newDate year (month - 1) day /\
    JSDate.getFullYear (expiration p) = Some year.
Proof.
  unfold validateRow.
  destruct (isHeaderRow data); [discriminate|].
  destruct (falsy (row_name data) || falsy (row_price data)
            || falsy (row_expiration data)) eqn:Hf; [discriminate|].
  destruct (row_expiration data) as [cell|] eqn:Hc.
  2:{ simpl in Hf. rewrite !orb_true_r in Hf. discriminate. }
  simpl.
  destruct (JS.isNaN _); [discriminate|].
  destruct (map JS.parseInt (JS.split "/" cell))
    as [|[m|] [|[d|] [|[y|] [|? ?]]]] eqn:Hparts; try discriminate.
  destruct (JSDate.isInvalid _ || _) eqn:Hchk; [discriminate|].
  intros [= <-]. simpl.
  apply orb_false_elim in Hchk as [_ Hyear].
  apply negb_false_iff, bool_decide_eq_true in Hyear.
  exists cell, m, d, y. auto.
Qed.

(** The counters after one row, and after any rows from any state. *)
Lemma on_data_counts (rates : ExchangeRates) (st : ParseState) (data : Row) :
  let st' := on_data rates st data in
  lineCount st' = S (lineCount st) /\
  processedCount st' = S (processedCount st) /\
  (successCount st' + length (errors st')
   + (if isHeaderRow data then 1 else 0)
   = S (successCount st + length (errors st)))%nat /\
  (length (results st') - successCount st'
   = length (results st) - successCount st)%nat /\
  (successCount st' - length (results st')
   = successCount st - length (results st))%nat.
Proof.
  unfold on_data.
  destruct (validateRow rates data) eqn:Hv; simpl.
  - apply validateRow_header in Hv. rewrite Hv.
    repeat split; lia.
  - assert (isHeaderRow data = false) as ->.
    { destruct (isHeaderRow data) eqn:Hh; [|reflexivity].
      apply (validateRow_header rates) in Hh. congruence. }
    rewrite length_app. simpl. repeat split; lia.
  - assert (isHeaderRow data = false) as ->.
    { destruct (isHeaderRow data) eqn:Hh; [|reflexivity].
      apply (validateRow_header rates) in Hh. congruence. }
    rewrite length_app. simpl. repeat split; lia.
Qed.

Lemma fold_on_data_counts (rates : ExchangeRates) (rs : list Row)
  (st : ParseState) :
  let st' := fold_left (on_data rates) rs st in
  lineCount st' = (lineCount st + length rs)%nat /\
  (successCount st' + length (errors st') + headerRows rs
   = successCount st + length (errors st) + length rs)%nat /\
  (length (results st') - successCount st'
   = length (results st) - successCount st)%nat /\
  (successCount st' - length (results st')
   = successCount st - length (results st))%nat.
Proof.
  revert st. induction rs as [|data rs IH]; intros st; simpl.
  - unfold headerRows. simpl. repeat split; lia.
  - specialize (IH (on_data rates st data)). simpl in IH.
    destruct IH as (IH1 & IH2 & IH3 & IH4).
    destruct (on_data_counts rates st data) as (H1 & _ & H2 & H3 & H4).
    unfold headerRows in *. simpl.
    destruct (isHeaderRow data); simpl; repeat split; lia.
Qed.

(** The counters when the stage ends. *)
Lemma parseRows_counts (rates : ExchangeRates) (rs : list Row) :
  let st := parseRows rates rs in
  lineCount st = length rs /\
  (successCount st + length (errors st) + headerRows rs)%nat = length rs /\
  length (results st) = successCount st.
Proof.
  unfold parseRows.
  destruct (fold_on_data_counts rates rs initialParseState)
    as (H1 & H2 & H3 & H4).
  simpl in *. repeat split; lia.
Qed.

(** C1 (the code departs from the claim).  The validator compares only the
    year of the constructed date with the year written in the cell.
    "02/29/2024" is accepted as the 29th of February 2024, and a date that
    overflows into the next year ("12/32/2024") is rejected; but
    "02/30/2024" and "02/29/2023" are accepted as well, and the product is
    stored with the first of March of that year. *)
Theorem C1_year_only_round_trip (rates : ExchangeRates) :
  (exists p,
     validateRow rates ["Widget"; "$1.00"; "02/29/2024"] = Valid p /\
     JSDate.getFullYear (expiration p) = Some 2024 /\
     JSDate.getMonth (expiration p) = Some 1 /\
     JSDate.getDate (expiration p) = Some 29) /\
  validateRow rates ["Widget"; "$1.00"; "12/32/2024"]
    = Invalid "Invalid date: 12/32/2024" /\
  (exists p,
     validateRow rates ["Widget"; "$1.00"; "02/30/2024"] = Valid p /\
     JSDate.getFullYear (expiration p) = Some 2024 /\
     JSDate.getMonth (expiration p) = Some 2 /\
     JSDate.getDate (expiration p) = Some 1) /\
  (exists p,
     validateRow rates ["Widget"; "$1.00"; "02/29/2023"] = Valid p /\
     JSDate.getFullYear (expiration p) = Some 2023 /\
     JSDate.getMonth (expiration p) = Some 2 /\
     JSDate.getDate (expiration p) = Some 1).
Proof.
  repeat split; try (eexists; split; [vm_compute; reflexivity|]);
    vm_compute; auto.
Qed.

(** C2, the claim as stated fails: the file has one data row, and the stage
    ends with no success and no error. *)
Lemma C2_repeated_header_not_counted :
  let st := parseRows (mkExchangeRates EmptyString ∅)
              (CsvParser.rows ";" 1 repeated_header_file) in
  dataRowCount repeated_header_file = 1%nat /\
  (successCount st + length (errors st))%nat = 0%nat /\
  (successCount st + length (errors st))%nat
    <> dataRowCount repeated_header_file.
Proof. vm_compute. repeat split; discriminate. Qed.

(** C2 (amended).  When the stage ends, every data row has been seen once
    ([lineCount]), and the successes, the recorded errors and the rows that
    repeat the header add up to the number of data rows: a row is a success
    or exactly one error unless it repeats the header, in which case the
    handler returns without counting it. *)
Theorem C2_rows_counted_once (rates : ExchangeRates) (input : string) :
  let st := parseRows rates (CsvParser.rows ";" 1 input) in
  lineCount st = dataRowCount input /\
  (successCount st + length (errors st)
   + headerRows (CsvParser.rows ";" 1 input))%nat = dataRowCount input /\
  length (results st) = successCount st.
Proof.
  unfold dataRowCount.
  apply (parseRows_counts rates (CsvParser.rows ";" 1 input)).
Qed.

(** C7 (the code departs from the claim).  "$1,234.56" parses to 1234.56 and
    "abc" is recorded as an invalid price; but only the first "$" and the
    first "," are removed, so with two separators the number stops at the
    second one: "$1,234,567.89" is accepted with the price 1234. *)
Theorem C7_first_separator_only (rates : ExchangeRates) :
  parsePrice "$1,234.56" = JS.Finite 123456 (-2) /\
  errors (parseRows rates [["Pear"; "abc"; "02/02/2025"]])
    = [ {| row := ["Pear"; "abc"; "02/02/2025"];
           error := "Invalid price format: abc";
           line := 1 |} ] /\
  parsePrice "$1,234,567.89" = JS.Finite 1234 0 /\
  (exists p,
     validateRow rates ["Widget"; "$1,234,567.89"; "12/31/2024"] = Valid p /\
     price p = JS.Finite 1234 0).
Proof.
  repeat split; try (vm_compute; reflexivity).
  eexists. split; vm_compute; reflexivity.
Qed.

(** ** Currency enrichment *)

Ltac run_monad :=
  unfold bind, ret, throw, try_catch, modify, get_store in *; simpl in *.

Lemma fetchSnapshot_hit (env : Env) (s : Store) (r : RatesData) :
  redis_up env = true -> cache s = Some r ->
  fetchSnapshot env s = (Ok (snapshot_of r), s).
Proof.
  intros Hup Hc.
  unfold fetchSnapshot, getExchangeRates, redis_get_rates. run_monad.
  rewrite Hup, Hc. reflexivity.
Qed.

Lemma fetchSnapshot_fetched (env : Env) (s : Store)
  (rates : gmap string JS.Number) :
  cache_miss env s -> provider env = Some rates ->
  fetchSnapshot env s
  = (Ok (snapshot_of {| rd_date := now_iso env; rd_rates := rates |}),
     if redis_up env
     then set_cache (Some {| rd_date := now_iso env; rd_rates := rates |}) s
     else s).
Proof.
  intros Hmiss Hp.
  unfold fetchSnapshot, getExchangeRates, redis_get_rates, redis_set_rates.
  run_monad. rewrite Hp.
  destruct Hmiss as [Hup | Hc].
  - rewrite Hup. reflexivity.
  - rewrite Hc. destruct (redis_up env); reflexivity.
Qed.

Lemma fetchSnapshot_failed (env : Env) (s : Store) :
  cache_miss env s -> provider env = None ->
  fetchSnapshot env s = (Err "Failed to fetch exchange rates", s).
Proof.
  intros Hmiss Hp.
  unfold fetchSnapshot, getExchangeRates, redis_get_rates. run_monad.
  rewrite Hp.
  destruct Hmiss as [Hup | Hc].
  - rewrite Hup. reflexivity.
  - rewrite Hc. destruct (redis_up env); reflexivity.
Qed.

(** Fetching the snapshot touches nothing but the rates cache. *)
Lemma fetchSnapshot_frame (env : Env) (s : Store) :
  let s' := snd (fetchSnapshot env s) in
  catalog s' = catalog s /\ db_log s' = db_log s /\ files s' = files s /\
  queue s' = queue s /\ batch_keys s' = batch_keys s.
Proof.
  unfold fetchSnapshot, getExchangeRates, redis_get_rates, redis_set_rates.
  run_monad.
  destruct (redis_up env), (cache s), (provider env); simpl; auto.
Qed.

(** ** Batch persistence *)

Lemma insertBatch_eq (env : Env) (products : list ProductDTO) (k : nat)
  (s : Store) :
  insertBatch env products (k * batchSize) s
  = (Ok tt, afterBatch env products s k).
Proof.
  unfold insertBatch, afterBatch, insertMany, redis_set_batch, batchRecord,
    insertedOf, batchFailed, batchAt.
  assert ((k * batchSize / batchSize + 1)%nat = (k + 1)%nat) as ->.
  { rewrite Nat.div_mul; [reflexivity | unfold batchSize; lia]. }
  run_monad.
  destruct (forallb _ _); simpl; [|reflexivity].
  destruct (redis_up env); reflexivity.
Qed.

Lemma totalBatches_lt (products : list ProductDTO) (k : nat) :
  (k < totalBatches products)%nat <-> (k * batchSize < length products)%nat.
Proof.
  unfold totalBatches, batchSize. simpl Nat.sub. split.
  - intros Hk.
    destruct (Nat.lt_ge_cases (k * 1000) (length products)) as [|Hge];
      [assumption|].
    assert ((length products + 999) / 1000 < k + 1)%nat; [|lia].
    apply Nat.Div0.div_lt_upper_bound. lia.
  - intros Hk.
    assert (k + 1 <= (length products + 999) / 1000)%nat; [|lia].
    apply Nat.div_le_lower_bound; lia.
Qed.

(** The loop runs the body on every remaining batch, in order, whatever
    the outcome of the batches before. *)
Lemma batchLoop_fold (env : Env) (products : list ProductDTO) (n k : nat)
  (s : Store) :
  (k + n)%nat = totalBatches products ->
  batchLoop env products (k * batchSize) s
  = (Ok tt, fold_left (afterBatch env products) (seq k n) s).
Proof.
  revert k s. induction n as [|n IH]; intros k s Hn.
  - simp batchLoop.
    destruct (decide (k * batchSize < length products)%nat) as [Hlt|Hge]; simpl.
    + apply totalBatches_lt in Hlt. lia.
    + reflexivity.
  - simp batchLoop.
    destruct (decide (k * batchSize < length products)%nat) as [Hlt|Hge]; simpl.
    + unfold bind. rewrite insertBatch_eq.
      replace (k * batchSize + batchSize)%nat with (S k * batchSize)%nat by lia.
      apply IH. lia.
    + exfalso. apply Hge. apply totalBatches_lt. lia.
Qed.

Lemma processProductsInBatches_ok (env : Env) (products : list ProductDTO)
  (s : Store) :
  deleteMany_ok env = true ->
  processProductsInBatches env products s = (Ok tt, persisted env products s).
Proof.
  intros Hd. unfold processProductsInBatches, deleteMany, persisted.
  run_monad. rewrite Hd.
  change (batchLoop env products 0) with (batchLoop env products (0 * batchSize)).
  rewrite (batchLoop_fold env products (totalBatches products) 0); reflexivity.
Qed.

Lemma processProductsInBatches_delete_fails (env : Env)
  (products : list ProductDTO) (s : Store) :
  deleteMany_ok env = false ->
  processProductsInBatches env products s
  = (Err "deleteMany failed", set_db_log (db_log s ++ [DeleteMany]) s).
Proof.
  intros Hd. unfold processProductsInBatches, deleteMany.
  run_monad. rewrite Hd. reflexivity.
Qed.

(** The batches are a partition of the records into slices of at most
    [batchSize]. *)
Lemma batches_from (products : list ProductDTO) (n k : nat) :
  (k + n)%nat = totalBatches products ->
  List.concat (map (batchAt products) (seq k n))
  = drop (k * batchSize) products.
Proof.
  revert k. induction n as [|n IH]; intros k Hn; simpl.
  - symmetry. apply drop_ge.
    destruct (Nat.lt_ge_cases (k * batchSize) (length products)) as [Hlt|Hge];
      [|exact Hge].
    apply totalBatches_lt in Hlt. lia.
  - rewrite IH by lia. unfold batchAt, slice.
    replace (k * batchSize + batchSize - k * batchSize)%nat
      with batchSize by lia.
    replace (S k * batchSize)%nat with (k * batchSize + batchSize)%nat by lia.
    rewrite <- drop_drop. apply take_drop.
Qed.

(** The batches sent to the datastore partition the products: taken in
    order they give the list back, nothing lost, repeated or reordered, and
    no batch is longer than the batch size. *)
Lemma batches_partition (products : list ProductDTO) :
  List.concat (map (batchAt products) (seq 0 (totalBatches products)))
  = products /\
  (forall k, length (batchAt products k) <= batchSize)%nat.
Proof.
  split.
  - rewrite (batches_from products (totalBatches products) 0) by reflexivity.
    reflexivity.
  - intros k. unfold batchAt, slice. rewrite length_take. lia.
Qed.

Lemma afterBatch_frame (env : Env) (products : list ProductDTO) (s : Store)
  (k : nat) :
  let s' := afterBatch env products s k in
  db_log s' = (db_log s ++ [batchRecord env products k])%list /\
  catalog s' = (catalog s ++ insertedOf env products k)%list /\
  cache s' = cache s /\ files s' = files s /\ queue s' = queue s.
Proof.
  unfold afterBatch.
  destruct (negb (batchFailed env products k) && redis_up env); simpl; auto.
Qed.

Lemma fold_afterBatch (env : Env) (products : list ProductDTO) (l : list nat)
  (s : Store) :
  let s' := fold_left (afterBatch env products) l s in
  db_log s' = (db_log s ++ map (batchRecord env products) l)%list /\
  catalog s'
  = (catalog s ++ List.concat (map (insertedOf env products) l))%list /\
  cache s' = cache s /\ files s' = files s /\ queue s' = queue s.
Proof.
  revert s. induction l as [|k l IH]; intros s; simpl.
  - rewrite !app_nil_r. auto.
  - destruct (IH (afterBatch env products s k)) as (H1 & H2 & H3 & H4 & H5).
    destruct (afterBatch_frame env products s k) as (F1 & F2 & F3 & F4 & F5).
    simpl in *.
    rewrite H1, H2, H3, H4, H5, F1, F2, F3, F4, F5.
    rewrite <- !app_assoc. auto.
Qed.

Lemma persisted_frame (env : Env) (products : list ProductDTO) (s : Store) :
  let s' := persisted env products s in
  db_log s'
  = (db_log s ++ DeleteMany
       :: map (batchRecord env products) (seq 0 (totalBatches products)))%list /\
  catalog s'
  = List.concat (map (insertedOf env products) (seq 0 (totalBatches products))) /\
  cache s' = cache s /\ files s' = files s /\ queue s' = queue s.
Proof.
  unfold persisted.
  destruct (fold_afterBatch env products (seq 0 (totalBatches products))
              (set_catalog [] (set_db_log (db_log s ++ [DeleteMany]) s)))
    as (H1 & H2 & H3 & H4 & H5).
  simpl in *. rewrite H1, H2, H3, H4, H5, <- app_assoc. auto.
Qed.

(** C6.  When the insert of batch [k] fails and a batch [k + 1] exists, the
    run of the batches still returns normally; the failed request is
    followed by the request for batch [k + 1], whose inserted count is the
    number of its own documents that the datastore accepts; and those
    documents are in the catalog afterwards. *)
Theorem C6_failed_batch_then_next (env : Env) (products : list ProductDTO)
  (s : Store) (k : nat) :
  deleteMany_ok env = true ->
  (S k * batchSize < length products)%nat ->
  batchFailed env products k = true ->
  let r := processProductsInBatches env products s in
  fst r = Ok tt /\
  db_log (snd r) !! (length (db_log s) + 1 + k)%nat
  = Some (InsertMany (k + 1) (batchAt products k)
            (length (insertedOf env products k)) true) /\
  db_log (snd r) !! (length (db_log s) + 1 + S k)%nat
  = Some (InsertMany (S k + 1) (batchAt products (S k))
            (length (List.filter (insert_accepts env (S k + 1))
                       (batchAt products (S k))))
            (batchFailed env products (S k))) /\
  (forall p, In p (insertedOf env products (S k)) -> In p (catalog (snd r))).
Proof.
  intros Hd Hk Hfail r. subst r.
  rewrite processProductsInBatches_ok by assumption. simpl.
  destruct (persisted_frame env products s) as (Hlog & Hcat & _).
  simpl in Hlog, Hcat.
  assert (Hn : (S k < totalBatches products)%nat)
    by (apply totalBatches_lt; assumption).
  assert (Hrec : forall j, (j < totalBatches products)%nat ->
            db_log (persisted env products s) !! (length (db_log s) + 1 + j)%nat
            = Some (batchRecord env products j)).
  { intros j Hj. rewrite Hlog.
    rewrite lookup_app_r by lia.
    replace (length (db_log s) + 1 + j - length (db_log s))%nat
      with (S j) by lia.
    simpl. rewrite list_lookup_fmap, lookup_seq_lt by assumption.
    reflexivity. }
  split; [reflexivity|]. split; [|split].
  - rewrite Hrec by lia. unfold batchRecord. rewrite Hfail. reflexivity.
  - rewrite Hrec by lia. reflexivity.
  - intros p Hp. rewrite Hcat. apply in_concat.
    exists (insertedOf env products (S k)). split; [|assumption].
    apply in_map. apply in_seq. lia.
Qed.

(** ** The pipeline *)

Lemma on_end_nothing_valid (env : Env) (st : ParseState) (s : Store) :
  results st = [] ->
  on_end env st s = (Ok (result_of st), s).
Proof.
  intros Hr. unfold on_end. rewrite Hr. reflexivity.
Qed.

Lemma on_end_persisted (env : Env) (st : ParseState) (s : Store) :
  deleteMany_ok env = true ->
  exists s', on_end env st s = (Ok (result_of st), s') /\
             cache s' = cache s /\ files s' = files s /\ queue s' = queue s.
Proof.
  intros Hd. unfold on_end.
  destruct (0 <? length (results st))%nat.
  - exists (persisted env (results st) s). run_monad.
    rewrite processProductsInBatches_ok by assumption.
    destruct (persisted_frame env (results st) s) as (_ & _ & H1 & H2 & H3).
    auto.
  - exists s. auto.
Qed.

(** The pipeline on a stream that opens: after the snapshot, the rows are
    validated and the ['end'] handler runs. *)
Lemma processCSVStream_opened (env : Env) (open : M string) (s s1 : Store)
  (rates : ExchangeRates) (input : string) :
  fetchSnapshot env s = (Ok rates, s1) ->
  open s1 = (Ok input, s1) ->
  processCSVStream env open s
  = on_end env (parseRows rates (CsvParser.rows ";" 1 input)) s1.
Proof.
  intros Hf Ho. unfold processCSVStream, bind. rewrite Hf, Ho. reflexivity.
Qed.

Lemma createReadStream_found (path input : string) (s : Store) :
  files s !! path = Some input ->
  createReadStream path s = (Ok input, s).
Proof.
  intros Hp. unfold createReadStream. run_monad. rewrite Hp. reflexivity.
Qed.

Lemma fetchSnapshot_files (env : Env) (s s1 : Store) (rates : ExchangeRates) :
  fetchSnapshot env s = (Ok rates, s1) -> files s1 = files s.
Proof.
  intros Hf. pose proof (fetchSnapshot_frame env s) as Hfr.
  rewrite Hf in Hfr. simpl in Hfr. tauto.
Qed.

(** C5.  With no cached snapshot and a provider that fails, both entry
    points of the pipeline reject with the provider error and leave every
    store as it was: no row was read, nothing was sent to the datastore
    (in particular no [deleteMany]), and the catalog is the one before. *)
Theorem C5_no_snapshot_rejects (env : Env) (s : Store) (path bytes : string) :
  cache_miss env s ->
  provider env = None ->
  processCSVFileWithMetrics env path s
  = (Err "Failed to fetch exchange rates", s) /\
  processCSVFileFromBuffer env bytes s
  = (Err "Failed to fetch exchange rates", s).
Proof.
  intros Hmiss Hp.
  unfold processCSVFileWithMetrics, processCSVFileFromBuffer,
    processCSVStream, bind.
  rewrite (fetchSnapshot_failed env s Hmiss Hp). auto.
Qed.

(** C10.  When the snapshot is obtained and the stage ends with no valid
    record, the pipeline resolves with [successCount = 0] and the errors it
    collected, and the datastore is not touched: no request is sent (so no
    [deleteMany]) and the catalog is the one before. *)
Theorem C10_nothing_valid_nothing_persisted (env : Env) (s s1 : Store)
  (rates : ExchangeRates) (path input : string) :
  fetchSnapshot env s = (Ok rates, s1) ->
  files s !! path = Some input ->
  results (parseRows rates (CsvParser.rows ";" 1 input)) = [] ->
  processCSVFileWithMetrics env path s
  = (Ok {| res_successCount := 0;
           res_errors :=
             errors (parseRows rates (CsvParser.rows ";" 1 input)) |}, s1) /\
  db_log s1 = db_log s /\
  catalog s1 = catalog s.
Proof.
  intros Hf Hp Hr.
  pose proof (fetchSnapshot_frame env s) as Hfr.
  rewrite Hf in Hfr. simpl in Hfr.
  destruct Hfr as (Hcat & Hlog & Hfiles & _).
  unfold processCSVFileWithMetrics.
  rewrite (processCSVStream_opened env _ s s1 rates input Hf)
    by (apply createReadStream_found; congruence).
  rewrite on_end_nothing_valid by assumption.
  destruct (parseRows_counts rates (CsvParser.rows ";" 1 input))
    as (_ & _ & Hlen).
  simpl in Hlen. rewrite Hr in Hlen. simpl in Hlen.
  unfold result_of. rewrite <- Hlen. auto.
Qed.

Lemma scenario_stage (rates : ExchangeRates) :
  result_of (parseRows rates (CsvParser.rows ";" 1 scenario_file))
  = {| res_successCount := 1; res_errors := scenario_errors |}.
Proof. vm_compute. reflexivity. Qed.

(** C8.  On the scenario file, once the snapshot is obtained and the
    catalog can be cleared, the pipeline resolves with one success and two
    errors: missing fields on the second data row, and an invalid price on
    the third. *)
Theorem C8_scenario_counts (env : Env) (s s1 : Store) (rates : ExchangeRates)
  (path : string) :
  fetchSnapshot env s = (Ok rates, s1) ->
  files s !! path = Some scenario_file ->
  deleteMany_ok env = true ->
  exists s',
    processCSVFileWithMetrics env path s
    = (Ok {| res_successCount := 1; res_errors := scenario_errors |}, s') /\
    length scenario_errors = 2%nat.
Proof.
  intros Hf Hp Hd.
  unfold processCSVFileWithMetrics.
  rewrite (processCSVStream_opened env _ s s1 rates scenario_file Hf).
  2:{ apply createReadStream_found.
      rewrite (fetchSnapshot_files env s s1 rates Hf). exact Hp. }
  destruct (on_end_persisted env
              (parseRows rates (CsvParser.rows ";" 1 scenario_file)) s1 Hd)
    as (s' & Hend & _).
  exists s'. rewrite Hend, scenario_stage. auto.
Qed.

(** C9.  Two runs on the same file with the same cached snapshot, in any two
    environments in which the catalog can be cleared, both resolve, and with
    the same result: the same [successCount] and the same errors.  The first
    run leaves the cached snapshot in place for the second. *)
Theorem C9_same_input_same_counts (env1 env2 : Env) (s1 s2 : Store)
  (snap : RatesData) (path input : string) :
  redis_up env1 = true -> redis_up env2 = true ->
  cache s1 = Some snap -> cache s2 = Some snap ->
  files s1 !! path = Some input -> files s2 !! path = Some input ->
  deleteMany_ok env1 = true -> deleteMany_ok env2 = true ->
  exists r1 r2 s1' s2',
    processCSVFileWithMetrics env1 path s1 = (Ok r1, s1') /\
    processCSVFileWithMetrics env2 path s2 = (Ok r2, s2') /\
    res_successCount r1 = res_successCount r2 /\
    length (res_errors r1) = length (res_errors r2) /\
    cache s1' = Some snap.
Proof.
  intros Hu1 Hu2 Hc1 Hc2 Hp1 Hp2 Hd1 Hd2.
  pose (st := parseRows (snapshot_of snap) (CsvParser.rows ";" 1 input)).
  destruct (on_end_persisted env1 st s1 Hd1) as (s1' & He1 & Hk1 & _).
  destruct (on_end_persisted env2 st s2 Hd2) as (s2' & He2 & _).
  exists (result_of st), (result_of st), s1', s2'.
  unfold processCSVFileWithMetrics.
  rewrite (processCSVStream_opened env1 _ s1 s1 (snapshot_of snap) input)
    by (auto using fetchSnapshot_hit, createReadStream_found).
  rewrite (processCSVStream_opened env2 _ s2 s2 (snapshot_of snap) input)
    by (auto using fetchSnapshot_hit, createReadStream_found).
  fold st. rewrite He1, He2, Hk1. auto.
Qed.

(** ** The synchronous fallback *)

(** The pipeline never writes to the file system or to the queue, whether it
    resolves or rejects. *)
Lemma on_end_frame (env : Env) (st : ParseState) (s : Store) :
  let s' := snd (on_end env st s) in
  files s' = files s /\ queue s' = queue s.
Proof.
  unfold on_end.
  destruct (0 <? length (results st))%nat; [|simpl; auto].
  destruct (deleteMany_ok env) eqn:Hd; run_monad.
  - rewrite processProductsInBatches_ok by assumption. simpl.
    destruct (persisted_frame env (results st) s) as (_ & _ & _ & H2 & H3).
    auto.
  - rewrite processProductsInBatches_delete_fails by assumption. simpl. auto.
Qed.



(** A connected service with an open channel publishes the message, with
    no header, and returns [true]. *)
Lemma sendToCsvQueue_published (env : Env) (path : string) (s : Store) :
  isConnected env = true -> publish env = Published ->
  RabbitMQService.sendToCsvQueue env path s
  = (Ok true,
     set_queue
       (queue s ++ [ {| content := {| filePath := path;
                                      timestamp := now_iso env;
                                      retryCount := None |};
                        headers := None; redelivered := false |} ]) s).
Proof.
  intros Hc Hp.
  unfold RabbitMQService.sendToCsvQueue, RabbitMQService.ensureConnected,
    RabbitMQService.channel_publish.
  rewrite Hc, Hp. reflexivity.
Qed.

(** Once connected, [consumeCsvQueue] registers [onMessage]. *)
Lemma consumeCsvQueue_connected (env : Env) (handler : Content -> M unit)
  (s : Store) :
  isConnected env = true ->
  RabbitMQService.consumeCsvQueue env handler s
  = (Ok (RabbitMQService.onMessage handler), s).
Proof.
  intros Hc.
  unfold RabbitMQService.consumeCsvQueue, RabbitMQService.ensureConnected.
  rewrite Hc. reflexivity.
Qed.


Lemma on_end_some_valid (env : Env) (st : ParseState) (s : Store) :
  results st <> [] ->
  on_end env st s
  = if deleteMany_ok env
    then (Ok (result_of st), persisted env (results st) s)
    else (Err "deleteMany failed", set_db_log (db_log s ++ [DeleteMany]) s).
Proof.
  intros Hr. unfold on_end.
  assert ((0 <? length (results st))%nat = true) as ->.
  { apply Nat.ltb_lt. destruct (results st); [congruence|simpl; lia]. }
  run_monad. destruct (deleteMany_ok env) eqn:Hd.
  - rewrite processProductsInBatches_ok by exact Hd. reflexivity.
  - rewrite processProductsInBatches_delete_fails by exact Hd. reflexivity.
Qed.

Lemma fetchSnapshot_same_data (env : Env) (s t : Store) :
  same_data s t ->
  fst (fetchSnapshot env s) = fst (fetchSnapshot env t) /\
  same_data (snd (fetchSnapshot env s)) (snd (fetchSnapshot env t)).
Proof.
  intros (Hc & Hcat & Hlog).
  unfold fetchSnapshot, getExchangeRates, redis_get_rates, redis_set_rates,
    same_data.
  run_monad. rewrite <- Hc.
  destruct (redis_up env), (cache s) eqn:Hcs, (provider env); simpl;
    repeat split; auto.
  all: congruence.
Qed.









(** ** Retry and dead-lettering *)

(** With the second client, a message without the header is requeued at
    every failure: the broker returns the message as it was published, so
    the next delivery computes the same counter. *)
Lemma config_requeues_again (error : string) (c : Content) (n : nat) :
  forall (rd : bool) (s : Store),
    deliveries (RabbitMQConfig.onMessage (failing error)) (S n)
      (set_queue [ {| content := c; headers := None; redelivered := rd |} ] s)
    = (Ok (repeat (Nack true) (S n)),
       set_queue [ {| content := c; headers := None; redelivered := true |} ] s).
Proof.
  induction n as [|n IH]; intros rd s.
  - reflexivity.
  - change (deliveries (RabbitMQConfig.onMessage (failing error)) (S (S n))
              (set_queue [ {| content := c; headers := None;
                              redelivered := rd |} ] s))
      with (match deliveries (RabbitMQConfig.onMessage (failing error)) (S n)
                    (set_queue [ {| content := c; headers := None;
                                    redelivered := true |} ] s) with
            | (Ok l, s') => (Ok (Nack true :: l), s')
            | (Err e, s') => (Err e, s')
            end).
    rewrite IH. reflexivity.
Qed.

(** C3 (the code departs from the claim).  In the client that the products
    service uses, a failure of the handler is settled with
    [nack(message, false, false)]: no counter is read, and the message
    leaves the queue at its first failure.  The second client computes the
    counter, but a message published without the header always gets 1 and is
    requeued unchanged, however often the handler fails.  A handler does
    fail: the processor throws when the staged file is missing. *)
Theorem C3_failure_is_not_retried (env : Env) (path error : string)
  (m : Message) (s : Store) (n : nat) :
  RabbitMQService.onMessage (failing error) m s = (Ok (Nack false), s) /\
  deliver (RabbitMQService.onMessage (failing error)) (set_queue [m] s)
  = (Ok (Some (Nack false)), set_queue [] s) /\
  RabbitMQConfig.nextRetryCount (RabbitMQConfig.message_for env path) = 1 /\
  deliveries (RabbitMQConfig.onMessage (failing error)) (S n)
    (set_queue [RabbitMQConfig.message_for env path] s)
  = (Ok (repeat (Nack true) (S n)),
     set_queue [ {| content := content (RabbitMQConfig.message_for env path);
                    headers := None;
                    redelivered := true |} ] s) /\
  processor env
    {| filePath := "/tmp/uploaded_1_products.csv";
       timestamp := now_iso env; retryCount := None |}
    (set_files ∅ s)
  = (Err "Temporary file missing", set_files ∅ s).
Proof.
  split; [reflexivity|]. split; [reflexivity|]. split; [reflexivity|].
  split.
  - apply config_requeues_again.
  - unfold processor, existsSync. run_monad.
    rewrite lookup_empty. reflexivity.
Qed.

(** ** Concrete runs *)


(** C5 at work: nothing cached and the provider down. *)
Lemma C5_no_snapshot_rejects_witness :
  cache_miss offline_env cold_store /\
  provider offline_env = None /\
  processCSVFileWithMetrics offline_env products_path cold_store
  = (Err "Failed to fetch exchange rates", cold_store) /\
  processCSVFileFromBuffer offline_env scenario_file cold_store
  = (Err "Failed to fetch exchange rates", cold_store).
Proof.
  split; [right; reflexivity|]. split; [reflexivity|].
  apply (C5_no_snapshot_rejects offline_env cold_store products_path
           scenario_file); [right|]; reflexivity.
Defined.

(** C6 at work: the first of two batches fails. *)
Lemma C6_failed_batch_then_next_witness :
  deleteMany_ok flaky_env = true /\
  (1 * batchSize < length many_products)%nat /\
  batchFailed flaky_env many_products 0 = true /\
  let r := processProductsInBatches flaky_env many_products cold_store in
  fst r = Ok tt /\
  db_log (snd r) !! 2%nat = Some (InsertMany 2 [old_product] 1 false) /\
  catalog (snd r) = [old_product].
Proof.
  assert (Hlen : (1 * batchSize < length many_products)%nat).
  { apply Nat.ltb_lt. vm_compute. reflexivity. }
  assert (Hfail : batchFailed flaky_env many_products 0 = true).
  { vm_compute. reflexivity. }
  split; [reflexivity|]. split; [exact Hlen|]. split; [exact Hfail|].
  destruct (C6_failed_batch_then_next flaky_env many_products cold_store 0
              eq_refl Hlen Hfail) as (Hok & _ & Hnext & _).
  split; [exact Hok|]. split.
  - etransitivity; [exact Hnext|]. vm_compute. reflexivity.
  - vm_compute. reflexivity.
Defined.

(** C8 at work: the scenario file with the snapshot cached. *)
Lemma C8_scenario_counts_witness :
  fetchSnapshot flaky_env warm_store
  = (Ok (snapshot_of cached_snapshot), warm_store) /\
  files warm_store !! products_path = Some scenario_file /\
  deleteMany_ok flaky_env = true /\
  exists s',
    processCSVFileWithMetrics flaky_env products_path warm_store
    = (Ok {| res_successCount := 1; res_errors := scenario_errors |}, s') /\
    length scenario_errors = 2%nat.
Proof.
  assert (Hf : fetchSnapshot flaky_env warm_store
               = (Ok (snapshot_of cached_snapshot), warm_store))
    by (vm_compute; reflexivity).
  assert (Hp : files warm_store !! products_path = Some scenario_file)
    by (vm_compute; reflexivity).
  split; [exact Hf|]. split; [exact Hp|]. split; [reflexivity|].
  exact (C8_scenario_counts flaky_env warm_store warm_store
           (snapshot_of cached_snapshot) products_path Hf Hp eq_refl).
Defined.

(** C9 at work: a run in which the first batch fails, and one in which
    every write succeeds. *)
Lemma C9_same_input_same_counts_witness :
  cache warm_store = Some cached_snapshot /\
  files warm_store !! products_path = Some scenario_file /\
  exists r1 r2 s1' s2',
    processCSVFileWithMetrics flaky_env products_path warm_store = (Ok r1, s1') /\
    processCSVFileWithMetrics steady_env products_path warm_store = (Ok r2, s2') /\
    res_successCount r1 = res_successCount r2 /\
    length (res_errors r1) = length (res_errors r2) /\
    cache s1' = Some cached_snapshot.
Proof.
  assert (Hp : files warm_store !! products_path = Some scenario_file)
    by (vm_compute; reflexivity).
  split; [reflexivity|]. split; [exact Hp|].
  exact (C9_same_input_same_counts flaky_env steady_env warm_store warm_store
           cached_snapshot products_path scenario_file
           eq_refl eq_refl eq_refl eq_refl Hp Hp eq_refl eq_refl).
Defined.

(** C10 at work: a file with two invalid rows leaves the catalog alone. *)
Lemma C10_nothing_valid_nothing_persisted_witness :
  fetchSnapshot steady_env warm_store_invalid
  = (Ok (snapshot_of cached_snapshot), warm_store_invalid) /\
  files warm_store_invalid !! products_path = Some invalid_file /\
  results (parseRows (snapshot_of cached_snapshot)
             (CsvParser.rows ";" 1 invalid_file)) = [] /\
  fst (processCSVFileWithMetrics steady_env products_path warm_store_invalid)
  = Ok {| res_successCount := 0;
          res_errors :=
            [ {| row := ["Pear"; "abc"; "02/02/2025"];
                 error := "Invalid price format: abc"; line := 1 |};
              {| row := ["Plum"; "1.50"; "2025-02-02"];
                 error := "Invalid date format. Expected MM/DD/YYYY: 2025-02-02";
                 line := 2 |} ] |} /\
  catalog (snd (processCSVFileWithMetrics steady_env products_path
                  warm_store_invalid)) = [old_product].
Proof.
  assert (Hf : fetchSnapshot steady_env warm_store_invalid
               = (Ok (snapshot_of cached_snapshot), warm_store_invalid))
    by (vm_compute; reflexivity).
  assert (Hp : files warm_store_invalid !! products_path = Some invalid_file)
    by (vm_compute; reflexivity).
  assert (Hr : results (parseRows (snapshot_of cached_snapshot)
                          (CsvParser.rows ";" 1 invalid_file)) = [])
    by (vm_compute; reflexivity).
  split; [exact Hf|]. split; [exact Hp|]. split; [exact Hr|].
  destruct (C10_nothing_valid_nothing_persisted steady_env warm_store_invalid
              warm_store_invalid (snapshot_of cached_snapshot) products_path
              invalid_file Hf Hp Hr) as (Hrun & _ & _).
  rewrite Hrun. split; vm_compute; reflexivity.
Defined.

(* ===================================================================== *)
(** * Further properties *)
(* ===================================================================== *)

(** ** The validator and the stage *)

Lemma is_cell_eq (s : option string) (v : string) :
  is_cell s v = true -> s = Some v.
Proof.
  destruct s as [w|]; simpl; [|discriminate].
  intros H. apply String.eqb_eq in H. congruence.
Qed.

(** X1.  A row whose name, price or expiration cell is absent or empty is
    rejected as incomplete, whatever its other cells hold. *)
Theorem missing_field_rejected (rates : ExchangeRates) (data : Row) :
  falsy (row_name data) || falsy (row_price data)
  || falsy (row_expiration data) = true ->
  validateRow rates data = Invalid "Missing required fields".
Proof.
  intros Hf. unfold validateRow.
  destruct (isHeaderRow data) eqn:Hh.
  - unfold isHeaderRow in Hh.
    apply andb_true_iff in Hh as [Hh He].
    apply andb_true_iff in Hh as [Hn Hp].
    apply is_cell_eq in Hn, Hp, He. rewrite Hn, Hp, He in Hf.
    discriminate.
  - rewrite Hf. reflexivity.
Qed.

Lemma fold_on_data_char rates rs : forall st,
  let st' := fold_left (on_data rates) rs st in
  results st' = (results st ++ omap (validProduct rates) rs)%list /\
  errors st' = (errors st ++ errorsFrom rates (lineCount st) rs)%list /\
  lineCount st' = (lineCount st + length rs)%nat.
Proof.
  induction rs as [|data rs IH]; intros st; simpl.
  - unfold errorsFrom. simpl. rewrite !app_nil_r. auto with lia.
  - destruct (IH (on_data rates st data)) as (H1 & H2 & H3).
    simpl in *. rewrite H1, H2, H3. clear IH H1 H2 H3.
    unfold errorsFrom. simpl.
    assert (Himap : imap (fun i => rowError rates (lineCount (on_data rates st data) + i)) rs
                    = imap ((fun i => rowError rates (lineCount st + i)) ∘ S) rs).
    { apply imap_ext. intros i x _. simpl.
      unfold on_data. destruct (validateRow rates data); simpl; f_equal; lia. }
    rewrite Himap.
    unfold on_data, validProduct, rowError.
    replace (lineCount st + 0)%nat with (lineCount st) by lia.
    destruct (validateRow rates data); simpl; rewrite <- ?app_assoc; simpl;
      repeat split; try reflexivity; lia.
Qed.

Lemma year_length (y : Z) :
  JSDate.DayFromYear (y + 1) - JSDate.DayFromYear y
  = if JSDate.InLeapYear y then 366 else 365.
Proof.
  unfold JSDate.DayFromYear, JSDate.InLeapYear.
  destruct (y mod 4 =? 0) eqn:H4; simpl;
  [destruct (y mod 100 =? 0) eqn:H100; simpl;
   [destruct (y mod 400 =? 0) eqn:H400; simpl|]|];
  rewrite ?Z.eqb_eq, ?Z.eqb_neq in *;
  Z.div_mod_to_equations; lia.
Qed.

Lemma MonthStart_bounds (leap : bool) (mn d : Z) :
  0 <= mn <= 11 -> 1 <= d <= 31 ->
  0 <= JSDate.MonthStart leap mn + d - 1 < (if leap then 366 else 365).
Proof.
  intros Hm Hd.
  assert (mn = 0 \/ mn = 1 \/ mn = 2 \/ mn = 3 \/ mn = 4 \/ mn = 5 \/ mn = 6
          \/ mn = 7 \/ mn = 8 \/ mn = 9 \/ mn = 10 \/ mn = 11) as Hc by lia.
  destruct leap;
    repeat (destruct Hc as [-> | Hc]; [simpl; lia|]); subst; simpl; lia.
Qed.

Lemma MakeDay_year (yr month d : Z) :
  1 <= d <= 31 ->
  JSDate.YearFromDay (JSDate.MakeDay yr month d) = yr + month / 12.
Proof.
  intros Hd. apply YearFromDay_unique. unfold JSDate.MakeDay.
  pose proof (Z.mod_pos_bound month 12 ltac:(lia)) as Hmn.
  pose proof (MonthStart_bounds (JSDate.InLeapYear (yr + month / 12))
                (month mod 12) d ltac:(lia) Hd) as Hb.
  pose proof (year_length (yr + month / 12)) as Hl.
  destruct (JSDate.InLeapYear (yr + month / 12)); lia.
Qed.

Lemma DayFromYear_bounds (y : Z) :
  365 * (y - 1970) + (y - 1970) / 4 - (y-1970)/100 + (y-1970)/400 - 3 <= JSDate.DayFromYear y
  <= 365 * (y - 1970) + (y - 1970) / 4 -(y-1970)/100 + (y-1970)/400 + 3.
Proof. unfold JSDate.DayFromYear. Z.div_mod_to_equations; lia. Qed.

Lemma dateCheck_plausible (year month day : Z) :
  100 <= year <= 200000 -> 1 <= day <= 31 ->
  (dateCheck year month day = true <-> 1 <= month <= 12).
Proof.
  intros Hy Hd. unfold dateCheck, JSDate.newDate.
  assert (((0 <=? year) && (year <=? 99)) = false) as -> by lia.
  assert ((Z.abs year <=? JSDate.maxYear) = true) as ->
    by (unfold JSDate.maxYear; lia).
  simpl andb.
  destruct (Z.abs (month - 1) <=? JSDate.maxMonth) eqn:Hm.
  2:{ simpl. unfold JSDate.maxMonth in Hm. split; [discriminate|lia]. }
  pose proof (MakeDay_year year (month - 1) day Hd) as Hyear.
  destruct (Z.abs (JSDate.MakeDay year (month - 1) day) <=? JSDate.maxDay) eqn:Hv; simpl.
  - rewrite Hyear. rewrite negb_involutive.
    rewrite bool_decide_eq_true. split.
    + intros [= H]. assert ((month - 1) / 12 = 0) by lia.
      apply Z.div_small_iff in H0; lia.
    + intros Hmm. f_equal. rewrite Z.div_small; lia.
  - split; [discriminate|]. intros Hmm. exfalso.
    apply Z.leb_gt in Hv. unfold JSDate.maxDay in Hv.
    unfold JSDate.MakeDay in Hv.
    rewrite (Z.div_small (month - 1) 12) in Hv by lia.
    rewrite Z.mod_small in Hv by lia.
    pose proof (MonthStart_bounds (JSDate.InLeapYear (year + 0)) (month - 1) day ltac:(lia) Hd).
    pose proof (DayFromYear_bounds (year + 0)).
    destruct (JSDate.InLeapYear (year + 0)); Z.div_mod_to_equations; lia.
Qed.

Lemma dateCheck_two_digit_year (year month day : Z) :
  0 <= year <= 99 -> 1 <= month <= 12 -> 1 <= day <= 31 ->
  dateCheck year month day = false.
Proof.
  intros Hy Hm Hd. unfold dateCheck, JSDate.newDate.
  assert (((0 <=? year) && (year <=? 99)) = true) as -> by lia.
  destruct ((Z.abs (1900 + year) <=? JSDate.maxYear) && (Z.abs (month - 1) <=? JSDate.maxMonth)); [|reflexivity].
  destruct (Z.abs (JSDate.MakeDay (1900 + year) (month - 1) day) <=? JSDate.maxDay); [|reflexivity].
  simpl. rewrite MakeDay_year by assumption.
  rewrite Z.div_small by lia.
  rewrite bool_decide_eq_false_2; [reflexivity|]. intros [= H]. lia.
Qed.

Lemma validateRow_dated (rates : ExchangeRates) (data : Row) (cell : string) :
  fieldsAndPriceOk data = true ->
  row_expiration data = Some cell ->
  validateRow rates data
  = match map JS.parseInt (JS.split "/" cell) with
    | [Some month; Some day; Some year] =>
        if dateCheck year month day
        then Valid {| name := JS.trim (default EmptyString (row_name data));
                      price := parsePrice (default EmptyString (row_price data));
                      expiration := JSDate.newDate year (month - 1) day;
                      exchangeRates := rates |}
        else Invalid ("Invalid date: " ++ cell)
    | [_; _; _] => Invalid ("Invalid date numbers: " ++ cell)
    | _ => Invalid ("Invalid date format. Expected MM/DD/YYYY: " ++ cell)
    end.
Proof.
  unfold fieldsAndPriceOk, validateRow, dateCheck. intros Hok He.
  apply andb_true_iff in Hok as [Hok Hp].
  apply andb_true_iff in Hok as [Hh Hf].
  apply negb_true_iff in Hh, Hf, Hp.
  rewrite Hh, Hf, Hp, He. simpl.
  destruct (map JS.parseInt (JS.split "/" cell))
    as [|[m|] [|[d|] [|[y|] [|? ?]]]]; try reflexivity.
  destruct (JSDate.isInvalid _ || _); reflexivity.
Qed.

Lemma split_length (c : ascii) (s : string) :
  length (JS.split c s) = S (count_char c s).
Proof.
  induction s as [|a s IH]; simpl; [reflexivity|].
  destruct (Ascii.eqb a c); simpl; [congruence|].
  destruct (JS.split c s); simpl in *; [discriminate|exact IH].
Qed.

(** X2.  An expiration cell that does not hold exactly two slashes is rejected
    for its format, before any of its numbers is read. *)
Theorem wrong_number_of_slashes (rates : ExchangeRates) (data : Row) (cell : string) :
  fieldsAndPriceOk data = true ->
  row_expiration data = Some cell ->
  count_char "/" cell <> 2%nat ->
  validateRow rates data
  = Invalid ("Invalid date format. Expected MM/DD/YYYY: " ++ cell).
Proof.
  intros Hok He Hc. rewrite (validateRow_dated rates data cell Hok He).
  pose proof (split_length "/" cell) as Hl.
  rewrite <- (length_map JS.parseInt) in Hl.
  destruct (map JS.parseInt (JS.split "/" cell))
    as [|[m|] [|[d|] [|[y|] [|? ?]]]]; simpl in Hl; try reflexivity; lia.
Qed.

Lemma trimStart_headOk s : headOk (JS.trimStart s).
Proof.
  induction s as [|c s IH]; simpl; [exact I|].
  destruct (JS.isWhiteSpace c) eqn:Hc; [exact IH|]. simpl. exact Hc.
Qed.

Lemma headOk_trimStart s : headOk s -> JS.trimStart s = s.
Proof. destruct s as [|c s]; simpl; [reflexivity|]. intros ->. reflexivity. Qed.

Lemma trimEnd_headOk s : headOk s -> headOk (JS.trimEnd s).
Proof.
  destruct s as [|c s]; simpl; [auto|]. intros Hc.
  destruct (JS.trimEnd s); [rewrite Hc|]; simpl; exact Hc.
Qed.

Lemma trimEnd_idem s : JS.trimEnd (JS.trimEnd s) = JS.trimEnd s.
Proof.
  induction s as [|c s IH]; simpl; [reflexivity|].
  destruct (JS.trimEnd s) as [|d r] eqn:Hr.
  - destruct (JS.isWhiteSpace c) eqn:Hc; simpl; [reflexivity|].
    rewrite Hc. reflexivity.
  - simpl. simpl in IH. rewrite IH. reflexivity.
Qed.

Lemma trim_idem s : JS.trim (JS.trim s) = JS.trim s.
Proof.
  unfold JS.trim.
  rewrite (headOk_trimStart (JS.trimEnd (JS.trimStart s))).
  - apply trimEnd_idem.
  - apply trimEnd_headOk, trimStart_headOk.
Qed.

Lemma rows_trimmed (sep : ascii) (k : nat) (input : string) (data : Row) (cell : string) :
  In data (CsvParser.rows sep k input) -> In cell data -> JS.trim cell = cell.
Proof.
  unfold CsvParser.rows. intros Hd Hc.
  apply in_map_iff in Hd as (l & <- & _).
  apply in_map_iff in Hc as (x & <- & _).
  apply trim_idem.
Qed.

Lemma valid_row_fields (rates : ExchangeRates) (data : Row) (p : ProductDTO) :
  validateRow rates data = Valid p ->
  exists cell,
    row_name data = Some cell /\ cell <> EmptyString /\
    name p = JS.trim cell /\
    exchangeRates p = rates /\
    JS.isNaN (price p) = false /\
    JSDate.isInvalid (expiration p) = false.
Proof.
  unfold validateRow.
  destruct (isHeaderRow data); [discriminate|].
  destruct (falsy (row_name data) || falsy (row_price data)
            || falsy (row_expiration data)) eqn:Hf; [discriminate|].
  apply orb_false_elim in Hf as [Hf _].
  apply orb_false_elim in Hf as [Hn _].
  destruct (row_name data) as [cell|]; [|discriminate]. simpl in Hn.
  destruct (JS.isNaN _) eqn:Hp; [discriminate|].
  destruct (map JS.parseInt _)
    as [|[m|] [|[d|] [|[y|] [|? ?]]]]; try discriminate.
  destruct (JSDate.isInvalid _ || _) eqn:Hchk; [discriminate|].
  intros [= <-]. simpl.
  apply orb_false_elim in Hchk as [Hinv _].
  exists cell. repeat split; auto.
  intros ->. discriminate.
Qed.

(** ** Batch persistence and enrichment *)

Lemma filter_all (A : Type) (f : A -> bool) (l : list A) :
  (forall x, In x l -> f x = true) -> List.filter f l = l.
Proof.
  induction l as [|x l IH]; intros H; simpl; [reflexivity|].
  rewrite (H x (or_introl eq_refl)). f_equal. apply IH.
  intros y Hy. apply H. right. exact Hy.
Qed.

Lemma filter_none (A : Type) (f : A -> bool) (l : list A) :
  (forall x, In x l -> f x = false) -> List.filter f l = [].
Proof.
  induction l as [|x l IH]; intros H; simpl; [reflexivity|].
  rewrite (H x (or_introl eq_refl)). apply IH.
  intros y Hy. apply H. right. exact Hy.
Qed.

Lemma filter_sublist (A : Type) (f : A -> bool) (l : list A) :
  sublist (List.filter f l) l.
Proof.
  induction l as [|x l IH]; simpl; [constructor|].
  destruct (f x); [apply sublist_skip|apply sublist_cons]; exact IH.
Qed.

Lemma concat_map_sublist (A : Type) (f g : nat -> list A) (l : list nat) :
  (forall k, sublist (f k) (g k)) ->
  sublist (List.concat (map f l)) (List.concat (map g l)).
Proof.
  intros H. induction l as [|k l IH]; simpl; [constructor|].
  apply sublist_app; [apply H | exact IH].
Qed.

Lemma sentBatches_records (env : Env) (products : list ProductDTO)
  (l : list nat) :
  sentBatches (map (batchRecord env products) l) = map (batchAt products) l.
Proof.
  induction l as [|k l IH]; [reflexivity|].
  change (batchAt products k :: sentBatches (map (batchRecord env products) l)
          = batchAt products k :: map (batchAt products) l).
  f_equal. exact IH.
Qed.

(** X9.  When the catalog can be cleared, the requests that
    [processProductsInBatches] sends after the [deleteMany] are inserts
    only, and their batches partition the products: taken in the order in
    which they were sent they give the list back, nothing lost, repeated or
    reordered, and every batch holds at least one product and at most the
    batch size. *)
Theorem sent_batches_partition (env : Env) (products : list ProductDTO)
  (s : Store) :
  deleteMany_ok env = true ->
  let s' := snd (processProductsInBatches env products s) in
  exists sent,
    db_log s' = (db_log s ++ DeleteMany :: sent)%list /\
    length (sentBatches sent) = length sent /\
    List.concat (sentBatches sent) = products /\
    Forall (fun batch => (1 <= length batch <= batchSize)%nat)
           (sentBatches sent).
Proof.
  intros Hd. rewrite processProductsInBatches_ok by exact Hd. cbn [snd].
  destruct (persisted_frame env products s) as (Hlog & _).
  cbv zeta in Hlog.
  exists (map (batchRecord env products) (seq 0 (totalBatches products))).
  split; [exact Hlog|]. rewrite sentBatches_records.
  split; [rewrite !length_map; reflexivity|]. split.
  - apply (batches_from products (totalBatches products) 0 eq_refl).
  - apply Forall_forall. intros batch Hin.
    apply list_elem_of_In, in_map_iff in Hin as (k & <- & Hk).
    apply in_seq in Hk. destruct Hk as [_ Hk]. simpl in Hk.
    apply totalBatches_lt in Hk.
    unfold batchAt, slice. rewrite length_take, length_drop.
    unfold batchSize in *. lia.
Qed.

(** X10.  When the catalog can be cleared and every insert is accepted, the
    catalog after the run is the list of products that was given, in its
    order: what the catalog held before is gone. *)
Theorem replace_all (env : Env) (products : list ProductDTO) (s : Store) :
  deleteMany_ok env = true ->
  (forall k p, insert_accepts env k p = true) ->
  exists s', processProductsInBatches env products s = (Ok tt, s') /\
             catalog s' = products.
Proof.
  intros Hd Hall. exists (persisted env products s).
  split; [apply processProductsInBatches_ok; exact Hd|].
  destruct (persisted_frame env products s) as (_ & Hcat & _).
  simpl in Hcat. rewrite Hcat.
  pose proof (batches_from products (totalBatches products) 0 eq_refl)
    as Hpart.
  etransitivity; [|exact Hpart]. f_equal. apply map_ext. intros k.
  unfold insertedOf. apply filter_all. intros; apply Hall.
Qed.

(** X11.  When the catalog can be cleared, whatever the inserts do, the catalog
    after the run holds only products that were given, each at most as often
    as it was given and in the order in which they were given. *)
Theorem catalog_sublist (env : Env) (products : list ProductDTO) (s : Store) :
  deleteMany_ok env = true ->
  let s' := snd (processProductsInBatches env products s) in
  sublist (catalog s') products.
Proof.
  intros Hd. rewrite processProductsInBatches_ok by exact Hd. simpl.
  destruct (persisted_frame env products s) as (_ & Hcat & _).
  simpl in Hcat. rewrite Hcat.
  pose proof (batches_from products (totalBatches products) 0 eq_refl)
    as Hpart.
  change (drop (0 * batchSize) products) with products in Hpart.
  pose proof (concat_map_sublist _ (insertedOf env products)
                (batchAt products) (seq 0 (totalBatches products))) as Hsub.
  rewrite Hpart in Hsub. apply Hsub.
  intros k. apply filter_sublist.
Qed.

Lemma getSelected_lookup_gen (rates : gmap string JS.Number) (l : list string) (acc : gmap string JS.Number) (c : string) :
  fold_left
    (fun selectedRates currency =>
       match rates !! currency with
       | Some r => if truthy r then <[currency := r]> selectedRates
                   else selectedRates
       | None => selectedRates
       end) l acc !! c
  = if bool_decide (c ∈ l)
    then match rates !! c with
         | Some r => if truthy r then Some r else acc !! c
         | None => acc !! c
         end
    else acc !! c.
Proof.
  revert acc. induction l as [|x l IH]; intros acc; simpl.
  - reflexivity.
  - rewrite IH. clear IH.
    destruct (decide (c = x)) as [->|Hne].
    + rewrite (bool_decide_eq_true_2 (x ∈ x :: l)) by (left).
      destruct (rates !! x) as [r|] eqn:Hr; [destruct (truthy r) eqn:Ht|].
      * rewrite lookup_insert_eq. destruct (bool_decide (x ∈ l)); reflexivity.
      * destruct (bool_decide (x ∈ l)); reflexivity.
      * destruct (bool_decide (x ∈ l)); reflexivity.
    + assert (bool_decide (c ∈ x :: l) = bool_decide (c ∈ l)) as ->.
      { apply bool_decide_ext. rewrite elem_of_cons. tauto. }
      assert (forall m : gmap string JS.Number,
                 match rates !! x with
                 | Some r => if truthy r then <[x:=r]> acc else acc
                 | None => acc end !! c = acc !! c) as Hacc.
      { intros _. destruct (rates !! x) as [r|]; [destruct (truthy r)|]; try reflexivity.
        apply lookup_insert_ne. congruence. }
      rewrite (Hacc ∅). reflexivity.
Qed.

(** X12.  The selection keeps a rate exactly when its currency is one of the six
    selected ones and the rate is truthy, and keeps it as it is. *)
Theorem getSelectedCurrencies_lookup (rates : gmap string JS.Number) (c : string) :
  getSelectedCurrencies rates !! c
  = if bool_decide (c ∈ selectedCurrencies)
    then match rates !! c with
         | Some r => if truthy r then Some r else None
         | None => None
         end
    else None.
Proof.
  unfold getSelectedCurrencies. rewrite getSelected_lookup_gen.
  rewrite lookup_empty. reflexivity.
Qed.

Lemma getSelectedCurrencies_idem (rates : gmap string JS.Number) :
  getSelectedCurrencies (getSelectedCurrencies rates) = getSelectedCurrencies rates.
Proof.
  apply map_eq. intros c. unfold getSelectedCurrencies.
  rewrite !getSelected_lookup_gen, !lookup_empty.
  destruct (bool_decide (c ∈ selectedCurrencies)); [|reflexivity].
  destruct (rates !! c) as [r|]; [|reflexivity].
  destruct (truthy r) eqn:Ht; [rewrite Ht|]; reflexivity.
Qed.

(** X13.  After a call that had to ask the provider, the snapshot is in the
    cache: the next call returns the same snapshot, date included, without
    the provider, and leaves the stores as they are. *)
Theorem cache_serves_second_call (env1 env2 : Env) (s : Store) (rates : gmap string JS.Number) :
  cache_miss env1 s -> provider env1 = Some rates ->
  redis_up env1 = true -> redis_up env2 = true ->
  exists r s1,
    getExchangeRates env1 s = (Ok r, s1) /\
    rd_rates r = rates /\
    getExchangeRates env2 s1 = (Ok r, s1).
Proof.
  intros Hmiss Hp Hu1 Hu2.
  unfold getExchangeRates, redis_get_rates, redis_set_rates, bind, ret, get_store, modify.
  rewrite Hu1, Hu2, Hp.
  destruct Hmiss as [Hc|Hc]; [congruence|]. rewrite Hc. simpl.
  eexists _, _. split; [reflexivity|]. split; reflexivity.
Qed.

Lemma parseRows_results (rates : ExchangeRates) (rs : list Row) :
  results (parseRows rates rs) = omap (validProduct rates) rs.
Proof.
  unfold parseRows.
  destruct (fold_on_data_char rates rs initialParseState) as (H1 & _).
  exact H1.
Qed.

Lemma parseRows_errors (rates : ExchangeRates) (rs : list Row) :
  errors (parseRows rates rs) = errorsFrom rates 0 rs.
Proof.
  unfold parseRows.
  destruct (fold_on_data_char rates rs initialParseState) as (_ & H2 & _).
  exact H2.
Qed.

(** X5.  The stage as a map over the rows: the valid products in the order of
    the file, and the errors with the position of their row. *)
Theorem parseRows_characterised (rates : ExchangeRates) (rs : list Row) :
  results (parseRows rates rs) = omap (validProduct rates) rs /\
  errors (parseRows rates rs) = errorsFrom rates 0 rs.
Proof.
  unfold parseRows.
  destruct (fold_on_data_char rates rs initialParseState) as (H1 & H2 & _).
  simpl in *. rewrite H1, H2. auto.
Qed.

Lemma errorsFrom_elem (rates : ExchangeRates) (rs : list Row) (start : nat)
  (e : ValidationError) :
  e ∈ errorsFrom rates start rs <->
  exists i data reason,
    rs !! i = Some data /\ validateRow rates data = Invalid reason /\
    e = {| row := data; error := reason; line := S (start + i) |}.
Proof.
  unfold errorsFrom. rewrite list_elem_of_omap. split.
  - intros (o & Ho & Hid). simpl in Hid. subst o.
    apply elem_of_lookup_imap in Ho as (i & data & Hr & Hi).
    unfold rowError in Hr.
    destruct (validateRow rates data) as [| reason |] eqn:Hv; try discriminate.
    injection Hr as Heq. subst e. eauto 6.
  - intros (i & data & reason & Hi & Hv & ->).
    exists (Some {| row := data; error := reason; line := S (start + i) |}).
    split; [|reflexivity].
    apply elem_of_lookup_imap. exists i, data. split; [|exact Hi].
    unfold rowError. rewrite Hv. reflexivity.
Qed.

(** X6.  Every recorded error names the data row it came from: [line] counts the
    data rows from 1, the row at that position is the recorded one, and the
    message is the one the validator gives for it. *)
Theorem error_lines (rates : ExchangeRates) (rs : list Row)
  (e : ValidationError) :
  e ∈ errors (parseRows rates rs) ->
  (1 <= line e <= length rs)%nat /\
  rs !! (line e - 1)%nat = Some (row e) /\
  validateRow rates (row e) = Invalid (error e).
Proof.
  rewrite parseRows_errors.
  intros He. apply errorsFrom_elem in He as (i & data & reason & Hi & Hv & ->).
  simpl. pose proof (lookup_lt_Some _ _ _ Hi).
  replace (i - 0)%nat with i by lia.
  repeat split; auto; lia.
Qed.

(** X7.  Every product that the stage hands to persistence carries the snapshot
    of the run, a price that is a number and a date that is a date. *)
Theorem products_carry_snapshot (rates : ExchangeRates) (rs : list Row)
  (p : ProductDTO) :
  p ∈ results (parseRows rates rs) ->
  exchangeRates p = rates /\
  JS.isNaN (price p) = false /\
  JSDate.isInvalid (expiration p) = false.
Proof.
  rewrite parseRows_results.
  intros Hp. apply list_elem_of_omap in Hp as (data & _ & Hv).
  unfold validProduct in Hv.
  destruct (validateRow rates data) eqn:Hrow; try discriminate.
  injection Hv as ->.
  destruct (valid_row_fields rates data p Hrow) as (c & _ & _ & _ & H1 & H2 & H3).
  auto.
Qed.

(** X8.  In a parsed file every product keeps the name cell as it is, and the
    name is not empty. *)
Theorem parsed_names (rates : ExchangeRates) (input : string) (p : ProductDTO) :
  p ∈ results (parseRows rates (CsvParser.rows ";" 1 input)) ->
  name p <> EmptyString /\
  exists data,
    data ∈ CsvParser.rows ";" 1 input /\ row_name data = Some (name p).
Proof.
  rewrite parseRows_results.
  intros Hp. apply list_elem_of_omap in Hp as (data & Hd & Hv).
  unfold validProduct in Hv.
  destruct (validateRow rates data) eqn:Hrow; try discriminate.
  injection Hv as ->.
  destruct (valid_row_fields rates data p Hrow) as (c & Hc & Hne & Hn & _).
  assert (JS.trim c = c) as Htrim.
  { apply (rows_trimmed ";" 1%nat input data c).
    - apply list_elem_of_In. exact Hd.
    - unfold row_name in Hc. apply list_elem_of_In.
      eapply list_elem_of_lookup_2. exact Hc. }
  rewrite Hn, Htrim. split; [exact Hne|].
  exists data. split; [exact Hd|exact Hc].
Qed.

(** X3.  With a day from 1 to 31 and a year from 100 to 200000, the date check
    lets through exactly the months 1 to 12, whatever the month and the day
    are together. *)
Theorem plausible_month_iff (rates : ExchangeRates) (data : Row)
  (cell : string) (month day year : Z) :
  fieldsAndPriceOk data = true ->
  row_expiration data = Some cell ->
  map JS.parseInt (JS.split "/" cell) = [Some month; Some day; Some year] ->
  100 <= year <= 200000 ->
  1 <= day <= 31 ->
  ((exists p, validateRow rates data = Valid p) <-> 1 <= month <= 12).
Proof.
  intros Hok He Hparts Hy Hd.
  rewrite (validateRow_dated rates data cell Hok He), Hparts.
  pose proof (dateCheck_plausible year month day Hy Hd) as Hiff.
  destruct (dateCheck year month day); split.
  - intros _. apply Hiff. reflexivity.
  - intros _. eauto.
  - intros [p Hp]. discriminate.
  - intros Hm. apply Hiff in Hm. discriminate.
Qed.

(** X4.  A year written with one or two digits is read as 1900 + year by [Date],
    so with a month from 1 to 12 and a day from 1 to 31 the row is
    rejected. *)
Theorem two_digit_year_rejected (rates : ExchangeRates) (data : Row)
  (cell : string) (month day year : Z) :
  fieldsAndPriceOk data = true ->
  row_expiration data = Some cell ->
  map JS.parseInt (JS.split "/" cell) = [Some month; Some day; Some year] ->
  0 <= year <= 99 -> 1 <= month <= 12 -> 1 <= day <= 31 ->
  validateRow rates data = Invalid ("Invalid date: " ++ cell).
Proof.
  intros Hok He Hparts Hy Hm Hd.
  rewrite (validateRow_dated rates data cell Hok He), Hparts.
  rewrite (dateCheck_two_digit_year year month day Hy Hm Hd). reflexivity.
Qed.

(** ** The pipeline and the datastore *)

Lemma fetchSnapshot_available (env : Env) (s : Store) :
  snapshot_available env s ->
  exists rates s1, fetchSnapshot env s = (Ok rates, s1).
Proof.
  intros Ha.
  destruct (redis_up env) eqn:Hu.
  - destruct (cache s) as [r|] eqn:Hc.
    + eexists _, _. apply (fetchSnapshot_hit env s r Hu Hc).
    + destruct Ha as [[_ [x Hx]]|[rates Hp]]; [congruence|].
      eexists _, _. apply fetchSnapshot_fetched; [right; exact Hc|exact Hp].
  - destruct Ha as [[Hu' _]|[rates Hp]]; [congruence|].
    eexists _, _. apply fetchSnapshot_fetched; [left; exact Hu|exact Hp].
Qed.

(** X14.  The pipeline resolves whenever a snapshot can be had, the file is there
    and the catalog can be cleared, whatever the rows are and whatever the
    inserts do; its result is the one of the validation stage. *)
Theorem pipeline_resolves (env : Env) (s : Store) (path input : string) :
  snapshot_available env s ->
  files s !! path = Some input ->
  deleteMany_ok env = true ->
  exists rates s',
    processCSVFileWithMetrics env path s
    = (Ok (result_of (parseRows rates (CsvParser.rows ";" 1 input))), s').
Proof.
  intros Ha Hp Hd.
  destruct (fetchSnapshot_available env s Ha) as (rates & s1 & Hf).
  destruct (on_end_persisted env
              (parseRows rates (CsvParser.rows ";" 1 input)) s1 Hd)
    as (s' & Hend & _).
  exists rates, s'. unfold processCSVFileWithMetrics.
  rewrite (processCSVStream_opened env _ s s1 rates input Hf).
  - exact Hend.
  - apply createReadStream_found.
    rewrite (fetchSnapshot_files env s s1 rates Hf). exact Hp.
Qed.

Lemma concat_nils (A : Type) (f : nat -> list A) (l : list nat) :
  (forall k, f k = []) -> List.concat (map f l) = [].
Proof.
  intros H. induction l as [|k l IH]; simpl; [reflexivity|].
  rewrite H, IH. reflexivity.
Qed.

(** X15.  [successCount] counts validated rows, not stored ones: when the catalog
    is cleared and then every insert is refused, the run still resolves with
    its successes, and the catalog is left empty. *)
Theorem successes_without_inserts (env : Env) (s s1 : Store)
  (rates : ExchangeRates) (path input : string) :
  fetchSnapshot env s = (Ok rates, s1) ->
  files s !! path = Some input ->
  results (parseRows rates (CsvParser.rows ";" 1 input)) <> [] ->
  deleteMany_ok env = true ->
  (forall k p, insert_accepts env k p = false) ->
  exists s',
    processCSVFileWithMetrics env path s
    = (Ok (result_of (parseRows rates (CsvParser.rows ";" 1 input))), s') /\
    (0 < successCount (parseRows rates (CsvParser.rows ";" 1 input)))%nat /\
    catalog s' = [].
Proof.
  intros Hf Hp Hr Hd Hnone.
  set (st := parseRows rates (CsvParser.rows ";" 1 input)) in *.
  exists (persisted env (results st) s1).
  unfold processCSVFileWithMetrics.
  rewrite (processCSVStream_opened env _ s s1 rates input Hf)
    by (apply createReadStream_found;
        rewrite (fetchSnapshot_files env s s1 rates Hf); exact Hp).
  fold st. rewrite (on_end_some_valid env st s1 Hr), Hd.
  split; [reflexivity|]. split.
  - destruct (parseRows_counts rates (CsvParser.rows ";" 1 input))
      as (_ & _ & Hlen).
    fold st in Hlen. simpl in Hlen. rewrite <- Hlen.
    destruct (results st); [congruence|simpl; lia].
  - destruct (persisted_frame env (results st) s1) as (_ & Hcat & _).
    simpl in Hcat. rewrite Hcat. apply concat_nils.
    intros k. unfold insertedOf. apply filter_none. intros; apply Hnone.
Qed.

(** X16.  When the catalog cannot be cleared the run rejects, no insert is sent,
    and the catalog stays as it was. *)
Theorem clear_failure_rejects (env : Env) (s s1 : Store)
  (rates : ExchangeRates) (path input : string) :
  fetchSnapshot env s = (Ok rates, s1) ->
  files s !! path = Some input ->
  results (parseRows rates (CsvParser.rows ";" 1 input)) <> [] ->
  deleteMany_ok env = false ->
  exists s',
    processCSVFileWithMetrics env path s = (Err "deleteMany failed", s') /\
    catalog s' = catalog s /\
    db_log s' = (db_log s ++ [DeleteMany])%list.
Proof.
  intros Hf Hp Hr Hd.
  pose proof (fetchSnapshot_frame env s) as Hfr.
  rewrite Hf in Hfr. simpl in Hfr. destruct Hfr as (Hc & Hl & _).
  exists (set_db_log (db_log s1 ++ [DeleteMany]) s1).
  unfold processCSVFileWithMetrics.
  rewrite (processCSVStream_opened env _ s s1 rates input Hf)
    by (apply createReadStream_found;
        rewrite (fetchSnapshot_files env s s1 rates Hf); exact Hp).
  rewrite (on_end_some_valid env _ s1 Hr), Hd. simpl.
  rewrite Hc, Hl. auto.
Qed.

(** ** Queue and file path compared with the direct run *)

Lemma on_end_same_data (env : Env) (st : ParseState) (s t : Store) :
  same_data s t ->
  fst (on_end env st s) = fst (on_end env st t) /\
  same_data (snd (on_end env st s)) (snd (on_end env st t)).
Proof.
  intros (Hc & Hcat & Hlog).
  destruct (results st) as [|p ps] eqn:Hr.
  - rewrite !on_end_nothing_valid by exact Hr. simpl. split; [reflexivity|].
    split; auto.
  - assert (results st <> []) as Hne by (rewrite Hr; discriminate).
    rewrite !(on_end_some_valid env st _ Hne).
    destruct (deleteMany_ok env); simpl.
    + split; [reflexivity|].
      destruct (persisted_frame env (results st) s) as (L1 & C1 & K1 & _).
      destruct (persisted_frame env (results st) t) as (L2 & C2 & K2 & _).
      simpl in *. unfold same_data.
      rewrite L1, L2, C1, C2, K1, K2, Hlog, Hc. auto.
    + split; [reflexivity|]. unfold same_data. simpl. rewrite Hlog. auto.
Qed.

Lemma processCSVFileWithMetrics_frame (env : Env) (path : string) (s : Store) :
  let s' := snd (processCSVFileWithMetrics env path s) in
  files s' = files s /\ queue s' = queue s.
Proof.
  unfold processCSVFileWithMetrics, processCSVStream, createReadStream.
  run_monad.
  pose proof (fetchSnapshot_frame env s) as Hfr.
  destruct (fetchSnapshot env s) as [[rates|e] s1]; simpl in *.
  - destruct Hfr as (_ & _ & Hf & Hq & _).
    destruct (files s1 !! path) as [bytes|]; simpl.
    + pose proof (on_end_frame env
                    (parseRows rates (CsvParser.rows ";" 1 bytes)) s1) as He.
      simpl in He. rewrite <- Hf, <- Hq. exact He.
    + auto.
  - tauto.
Qed.

(** The run on a file and the run on its bytes agree: the same outcome and
    the same data afterwards, from any two stores that hold the same data.
    What else the stores hold (other files, queued messages) plays no part. *)
Lemma file_and_buffer_agree (env : Env) (path bytes : string) (s t : Store) :
  same_data s t ->
  files t !! path = Some bytes ->
  fst (processCSVFileWithMetrics env path t)
  = fst (processCSVFileFromBuffer env bytes s) /\
  same_data (snd (processCSVFileFromBuffer env bytes s))
            (snd (processCSVFileWithMetrics env path t)).
Proof.
  intros Hsd Hp.
  unfold processCSVFileWithMetrics, processCSVFileFromBuffer,
    processCSVStream, createReadStream.
  run_monad.
  destruct (fetchSnapshot_same_data env s t Hsd) as [Hfst Hsnd].
  pose proof (fetchSnapshot_frame env t) as Hfr.
  destruct (fetchSnapshot env s) as [[rates|e] s1];
    destruct (fetchSnapshot env t) as [[rates'|e'] t1]; simpl in *;
    try discriminate.
  - injection Hfst as <-.
    destruct Hfr as (_ & _ & Hf & _). rewrite Hf, Hp. simpl.
    destruct (on_end_same_data env
                (parseRows rates (CsvParser.rows ";" 1 bytes)) s1 t1 Hsnd)
      as [H1 H2].
    split; [symmetry; exact H1|exact H2].
  - injection Hfst as <-. auto.
Qed.

(** ** The consumer and the two orchestrators *)

Lemma append_nonempty (a : string) (c : ascii) (r : string) :
  String.eqb (a ++ String c r) EmptyString = false.
Proof. destruct a; reflexivity. Qed.

Lemma tempFilePathOf_nonempty (env : Env) (f : UploadedFile) :
  String.eqb (tempFilePathOf env f) EmptyString = false.
Proof. unfold tempFilePathOf. apply append_nonempty. Qed.

Lemma loadTestFile_nonempty (cwd : string) :
  String.eqb (loadTestFile cwd) EmptyString = false.
Proof. unfold loadTestFile. apply append_nonempty. Qed.

(** The processor on a message whose file is there: the pipeline runs on
    the file, and the file is removed when the pipeline resolves. *)
Lemma processor_runs (env : Env) (c : Content) (bytes : string) (s : Store) :
  String.eqb (filePath c) EmptyString = false ->
  files s !! filePath c = Some bytes ->
  processor env c s
  = match processCSVFileWithMetrics env (filePath c) s with
    | (Ok r, s') => (Ok tt, set_files (delete (filePath c) (files s')) s')
    | (Err e, s') => (Err e, s')
    end.
Proof.
  intros Hne Hp.
  pose proof (processCSVFileWithMetrics_frame env (filePath c) s) as Hfr.
  unfold processor, existsSync, unlinkSync. rewrite Hne. run_monad.
  rewrite Hp. simpl.
  destruct (processCSVFileWithMetrics env (filePath c) s) as [[r|e] s'];
    simpl in *; [|reflexivity].
  destruct Hfr as [Hf _].
  assert (Hp' : files s' !! filePath c = Some bytes) by (rewrite Hf; exact Hp).
  rewrite Hp'. simpl. rewrite Hp'. reflexivity.
Qed.

(** A message without a file path is acknowledged, and nothing is run. *)
Theorem message_without_path_acknowledged (env : Env) (m : Message)
  (s : Store) :
  filePath (content m) = EmptyString ->
  deliver (RabbitMQService.onMessage (processor env)) (set_queue [m] s)
  = (Ok (Some Ack), set_queue [] s).
Proof.
  intros Hp. unfold deliver, RabbitMQService.onMessage, processor.
  run_monad. rewrite Hp. reflexivity.
Qed.

(** X17.  An upload that is queued and then consumed ends as the direct run on
    the same bytes: the upload answers with zeros and leaves the catalog
    alone; the delivery is acknowledged exactly when the direct run
    resolves, the data afterwards is the data of the direct run, and the
    staged file is removed exactly when the run resolved. *)
Theorem upload_then_consume (env : Env) (f : UploadedFile) (bytes : string)
  (s : Store) :
  buffer f = Some bytes ->
  isConnected env = true -> fs_write_ok env = true ->
  publish env = Published ->
  queue s = [] ->
  let up := processCSVFromUpload env (Some f) s in
  let dl := deliver (RabbitMQService.onMessage (processor env)) (snd up) in
  let direct := processCSVFileFromBuffer env bytes s in
  fst up = Ok {| processed := 0; summary_errors := 0 |} /\
  same_data s (snd up) /\
  fst dl = Ok (Some (match fst direct with Ok _ => Ack | Err _ => Nack false end)) /\
  same_data (snd direct) (snd dl) /\
  queue (snd dl) = [] /\
  files (snd dl) !! tempFilePathOf env f
  = match fst direct with Ok _ => None | Err _ => Some bytes end.
Proof.
  intros Hb Hc Hw Hpub Hq up dl direct.
  set (tmp := tempFilePathOf env f).
  set (s1 := set_files (<[tmp := bytes]> (files s)) s).
  set (msg := {| content := {| filePath := tmp; timestamp := now_iso env;
                               retryCount := None |};
                 headers := None; redelivered := false |}).
  assert (Hup : up = (Ok {| processed := 0; summary_errors := 0 |},
                      set_queue [msg] s1)).
  { subst up. unfold processCSVFromUpload. rewrite Hb.
    unfold RabbitMQService.waitForConnection, RabbitMQService.ensureConnected,
      writeFileSync.
    rewrite Hc, Hw. fold tmp. run_monad.
    rewrite (sendToCsvQueue_published env tmp _ Hc Hpub). simpl.
    rewrite Hq. reflexivity. }
  assert (Hsd : same_data s (set_queue [] s1))
    by (unfold same_data; simpl; auto).
  assert (Hfile : files (set_queue [] s1) !! tmp = Some bytes)
    by (simpl; apply lookup_insert_eq).
  destruct (file_and_buffer_agree env tmp bytes s (set_queue [] s1) Hsd Hfile)
    as [Hfst Hdata].
  pose proof (processCSVFileWithMetrics_frame env tmp (set_queue [] s1))
    as [Hff Hfq].
  assert (Hdl : dl = match processCSVFileWithMetrics env tmp (set_queue [] s1) with
                     | (Ok r, s') =>
                         (Ok (Some Ack), set_files (delete tmp (files s')) s')
                     | (Err e, s') => (Ok (Some (Nack false)), s')
                     end).
  { subst dl. rewrite Hup. simpl snd.
    pose proof (processor_runs env (content msg) bytes (set_queue [] s1)
                  (tempFilePathOf_nonempty env f) Hfile) as Hproc.
    unfold deliver, RabbitMQService.onMessage.
    unfold bind, ret, try_catch, modify, get_store.
    cbn [queue set_queue].
    change (set_queue [] (set_queue [msg] s1)) with (set_queue [] s1).
    rewrite Hproc. cbn [content filePath msg].
    destruct (processCSVFileWithMetrics env tmp (set_queue [] s1))
      as [[r|e] s']; reflexivity. }
  rewrite Hup, Hdl. simpl fst. simpl snd. fold direct in Hfst, Hdata.
  destruct (processCSVFileWithMetrics env tmp (set_queue [] s1))
    as [[r|e] s'] eqn:Hrun; simpl in *;
    destruct direct as [[r'|e'] sd]; simpl in *; try discriminate.
  - repeat split; auto; try (apply Hdata).
    apply lookup_delete_eq.
  - repeat split; auto; try (apply Hdata).
    rewrite Hff. apply lookup_insert_eq.
Qed.

(** X18.  The import from the load-test file, queued and consumed, removes the
    load-test file: the next call throws. *)
Theorem load_file_consumed_once (env : Env) (cwd input : string) (s : Store) :
  isConnected env = true -> publish env = Published ->
  files s !! loadTestFile cwd = Some input ->
  queue s = [] ->
  snapshot_available env s -> deleteMany_ok env = true ->
  exists s1 s2,
    processCSVFromFile env cwd s
    = (Ok "CSV sent for background processing via RabbitMQ.", s1) /\
    deliver (RabbitMQService.onMessage (processor env)) s1
    = (Ok (Some Ack), s2) /\
    fst (processCSVFromFile env cwd s2)
    = Err ("CSV file not found at: " ++ loadTestFile cwd).
Proof.
  intros Hc Hpub Hp Hq Ha Hd.
  set (path := loadTestFile cwd) in *.
  set (msg := {| content := {| filePath := path; timestamp := now_iso env;
                               retryCount := None |};
                 headers := None; redelivered := false |}).
  assert (Hfirst : processCSVFromFile env cwd s
                   = (Ok "CSV sent for background processing via RabbitMQ.",
                      set_queue [msg] s)).
  { unfold processCSVFromFile, existsSync,
      RabbitMQService.waitForConnection, RabbitMQService.ensureConnected.
    fold path. run_monad. rewrite Hp, Hc. simpl.
    rewrite (sendToCsvQueue_published env path s Hc Hpub). simpl.
    rewrite Hq. reflexivity. }
  assert (Ha' : snapshot_available env (set_queue [] s)) by exact Ha.
  destruct (fetchSnapshot_available env (set_queue [] s) Ha')
    as (rates & s1 & Hf).
  destruct (on_end_persisted env
              (parseRows rates (CsvParser.rows ";" 1 input)) s1 Hd)
    as (s' & Hend & _).
  assert (Hrun : processCSVFileWithMetrics env path (set_queue [] s)
                 = (Ok (result_of
                          (parseRows rates (CsvParser.rows ";" 1 input))), s')).
  { unfold processCSVFileWithMetrics.
    rewrite (processCSVStream_opened env _ (set_queue [] s) s1 rates input Hf).
    - exact Hend.
    - apply createReadStream_found.
      rewrite (fetchSnapshot_files env (set_queue [] s) s1 rates Hf).
      exact Hp. }
  pose proof (processCSVFileWithMetrics_frame env path (set_queue [] s))
    as [Hff _].
  rewrite Hrun in Hff. simpl in Hff.
  exists (set_queue [msg] s), (set_files (delete path (files s')) s').
  split; [exact Hfirst|]. split.
  - pose proof (processor_runs env (content msg) input (set_queue [] s)
                  (loadTestFile_nonempty cwd) Hp) as Hproc.
    unfold deliver, RabbitMQService.onMessage.
    unfold bind, ret, try_catch, modify, get_store.
    cbn [queue set_queue].
    change (set_queue [] (set_queue [msg] s)) with (set_queue [] s).
    rewrite Hproc. cbn [content filePath msg]. rewrite Hrun. reflexivity.
  - unfold processCSVFromFile, existsSync. fold path. run_monad.
    rewrite lookup_delete_eq. reflexivity.
Qed.

Lemma no_snapshot_no_run (env : Env) (s : Store) (path : string) :
  cache_miss env s -> provider env = None ->
  processCSVFileWithMetrics env path s
  = (Err "Failed to fetch exchange rates", s).
Proof.
  intros Hmiss Hp.
  unfold processCSVFileWithMetrics, processCSVStream, bind.
  rewrite (fetchSnapshot_failed env s Hmiss Hp). reflexivity.
Qed.

(** X19.  When the broker is down and no snapshot can be had, the import from the
    load-test file does not throw: it answers that the file was processed,
    with no success and one error. *)
Theorem sync_failure_masked (env : Env) (cwd input : string) (s : Store) :
  files s !! loadTestFile cwd = Some input ->
  isConnected env = false ->
  cache_miss env s -> provider env = None ->
  processCSVFromFile env cwd s
  = (Ok "CSV processed synchronously. Success: 0, Errors: 1", s).
Proof.
  intros Hp Hc Hmiss Hprov.
  pose proof (no_snapshot_no_run env s (loadTestFile cwd) Hmiss Hprov) as Hrun.
  unfold processCSVFromFile, existsSync, processCSVFileSync,
    RabbitMQService.waitForConnection, RabbitMQService.ensureConnected.
  run_monad. rewrite Hp, Hc. simpl.
  destruct (connectionPromise env); simpl; rewrite Hrun; reflexivity.
Qed.

(** ** Reconnection *)

Lemma step_failure (c : Reconnect.Client) (e : Reconnect.Event) :
  e <> Reconnect.ConnectSucceeded ->
  (Reconnect.reconnectAttempts c <= Reconnect.maxReconnectAttempts)%nat ->
  let c' := Reconnect.step c e in
  Reconnect.connected c' = false /\
  Reconnect.reconnectAttempts c'
  = Nat.min Reconnect.maxReconnectAttempts (S (Reconnect.reconnectAttempts c)) /\
  Reconnect.timers c'
  = (Reconnect.timers c
     ++ map (fun k => (Reconnect.reconnectDelay * k)%nat)
          (seq (S (Reconnect.reconnectAttempts c))
               (Reconnect.reconnectAttempts c'
                - Reconnect.reconnectAttempts c)))%list.
Proof.
  intros He Hle.
  assert (Hs : Reconnect.step c e
               = Reconnect.scheduleReconnect (Reconnect.disconnected c)).
  { destruct e; try congruence; try reflexivity.
    unfold Reconnect.step, Reconnect.scheduleReconnect.
    change (Reconnect.reconnectAttempts (Reconnect.disconnected c))
      with (Reconnect.reconnectAttempts c).
    destruct (Nat.ltb_spec (Reconnect.reconnectAttempts c)
                Reconnect.maxReconnectAttempts) as [Hlt|Hge];
      [reflexivity|].
    destruct (Nat.leb_spec Reconnect.maxReconnectAttempts
                (Reconnect.reconnectAttempts c)) as [_|Hlt];
      [reflexivity|lia]. }
  cbv zeta. rewrite Hs.
  unfold Reconnect.scheduleReconnect.
  change (Reconnect.reconnectAttempts (Reconnect.disconnected c))
    with (Reconnect.reconnectAttempts c).
  change (Reconnect.timers (Reconnect.disconnected c))
    with (Reconnect.timers c).
  change (Reconnect.connected (Reconnect.disconnected c)) with false.
  destruct (Nat.leb_spec Reconnect.maxReconnectAttempts
              (Reconnect.reconnectAttempts c)) as [Hge|Hlt];
    cbn [Reconnect.connected Reconnect.reconnectAttempts Reconnect.timers
         Reconnect.disconnected].
  - replace (Reconnect.reconnectAttempts c - Reconnect.reconnectAttempts c)%nat
      with 0%nat by lia.
    cbn [seq map]. rewrite app_nil_r. repeat split; lia.
  - replace (S (Reconnect.reconnectAttempts c) - Reconnect.reconnectAttempts c)%nat
      with 1%nat by lia.
    cbn [seq map]. repeat split; lia.
Qed.

(** X20.  Without a successful connect, every event uses one attempt until the
    cap of five is reached, and then nothing more is scheduled: the
    attempts end at [min 5 (attempts + events)], and the timers set are the
    delays 5000 x attempt for the attempts used, in order. *)
Theorem reconnect_backoff (c : Reconnect.Client)
  (trace : list Reconnect.Event) :
  noSuccess trace ->
  (Reconnect.reconnectAttempts c <= Reconnect.maxReconnectAttempts)%nat ->
  let c' := Reconnect.run c trace in
  Reconnect.reconnectAttempts c'
  = Nat.min Reconnect.maxReconnectAttempts
            (Reconnect.reconnectAttempts c + length trace) /\
  Reconnect.timers c'
  = (Reconnect.timers c
     ++ map (fun k => (Reconnect.reconnectDelay * k)%nat)
          (seq (S (Reconnect.reconnectAttempts c))
               (Reconnect.reconnectAttempts c'
                - Reconnect.reconnectAttempts c)))%list.
Proof.
  intros Hns. revert c. induction Hns as [|e trace He Hns IH]; intros c Hle.
  - unfold Reconnect.run, Reconnect.maxReconnectAttempts in *.
    cbn [fold_left length].
    replace (Nat.min 5 (Reconnect.reconnectAttempts c + 0))
      with (Reconnect.reconnectAttempts c) by lia.
    replace (Reconnect.reconnectAttempts c - Reconnect.reconnectAttempts c)%nat
      with 0%nat by lia.
    cbn [seq map]. rewrite app_nil_r. auto.
  - destruct (step_failure c e He Hle) as (_ & Ha & Ht).
    cbv zeta in Ha, Ht.
    assert (Hle' : (Reconnect.reconnectAttempts (Reconnect.step c e)
                    <= Reconnect.maxReconnectAttempts)%nat)
      by (rewrite Ha; apply Nat.le_min_l).
    destruct (IH (Reconnect.step c e) Hle') as (IHa & IHt).
    unfold Reconnect.run in *. cbn [fold_left length] in *.
    unfold Reconnect.maxReconnectAttempts in *.
    set (a := Reconnect.reconnectAttempts c) in *.
    set (n := length trace) in *.
    set (a1 := Reconnect.reconnectAttempts (Reconnect.step c e)) in *.
    set (a2 := Reconnect.reconnectAttempts
                 (fold_left Reconnect.step trace (Reconnect.step c e))) in *.
    split; [lia|].
    rewrite IHt, Ht, <- app_assoc, <- map_app. f_equal. f_equal.
    assert (a1 = a \/ a1 = S a) as [Hm|Hm] by lia.
    + rewrite Hm. replace (a - a)%nat with 0%nat by lia. cbn [seq app].
      assert (a2 = a) as -> by lia.
      replace (a - a)%nat with 0%nat by lia. reflexivity.
    + rewrite Hm. replace (S a - a)%nat with 1%nat by lia.
      replace (a2 - a)%nat with (1 + (a2 - S a))%nat by lia.
      rewrite seq_app.
      replace (S a + 1)%nat with (S (S a)) by lia. reflexivity.
Qed.

(** X21.  Whatever happens, the attempts never pass five, and every timer ever
    set waits 5, 10, 15, 20 or 25 seconds. *)
Theorem reconnect_bounded (trace : list Reconnect.Event) :
  let c := Reconnect.run Reconnect.initial trace in
  (Reconnect.reconnectAttempts c <= 5)%nat /\
  Forall (fun d => exists k, (1 <= k <= 5)%nat /\ d = (5000 * k)%nat)
         (Reconnect.timers c).
Proof.
  assert (Hinv : forall c,
            (Reconnect.reconnectAttempts c <= 5)%nat /\
            Forall (fun d => exists k, (1 <= k <= 5)%nat /\ d = (5000 * k)%nat)
                   (Reconnect.timers c) ->
            (Reconnect.reconnectAttempts (Reconnect.run c trace) <= 5)%nat /\
            Forall (fun d => exists k, (1 <= k <= 5)%nat /\ d = (5000 * k)%nat)
                   (Reconnect.timers (Reconnect.run c trace))).
  { induction trace as [|e trace IH]; intros c Hc; [exact Hc|].
    unfold Reconnect.run in *. simpl. apply IH. clear IH.
    destruct Hc as [Ha Ht].
    assert (e = Reconnect.ConnectSucceeded \/ e <> Reconnect.ConnectSucceeded)
      as [->|He] by (destruct e; auto; right; discriminate).
    - simpl. split; [lia|exact Ht].
    - destruct (step_failure c e He Ha) as (_ & Ha' & Ht').
      cbv zeta in Ha', Ht'. unfold Reconnect.maxReconnectAttempts in *.
      split; [rewrite Ha'; lia|].
      rewrite Ht'. apply Forall_app. split; [exact Ht|].
      apply Forall_forall. intros d Hd.
      apply list_elem_of_In, in_map_iff in Hd as (k & <- & Hk).
      apply in_seq in Hk. exists k. unfold Reconnect.reconnectDelay.
      split; lia. }
  apply Hinv. simpl. split; [lia|constructor].
Qed.

(** ** The rate-limit tracker *)

Lemma strip_prefix_app (p s : string) :
  IpBasedThrottlerGuard.strip_prefix p (p ++ s) = Some s.
Proof.
  induction p as [|a p IH]; simpl; [destruct s; reflexivity|].
  rewrite Ascii.eqb_refl. exact IH.
Qed.

Lemma replaceFirst_unfold (p s : string) :
  IpBasedThrottlerGuard.replaceFirst p s
  = match IpBasedThrottlerGuard.strip_prefix p s with
    | Some rest => rest
    | None =>
        match s with
        | String c s' => String c (IpBasedThrottlerGuard.replaceFirst p s')
        | EmptyString => EmptyString
        end
    end.
Proof. destruct s; reflexivity. Qed.

Lemma replaceFirst_prefix (p s : string) :
  IpBasedThrottlerGuard.replaceFirst p (p ++ s) = s.
Proof. rewrite replaceFirst_unfold, strip_prefix_app. reflexivity. Qed.

Lemma or_else_truthy (a b : option string) :
  falsy b = false -> falsy (IpBasedThrottlerGuard.or_else a b) = false.
Proof.
  intros Hb. unfold IpBasedThrottlerGuard.or_else.
  destruct (falsy a) eqn:Ha; [exact Hb|exact Ha].
Qed.

(** X22.  The tracker is never empty, and the exception names exactly
    the address that was tracked: removing the prefix from the tracker gives
    the address back, whatever the address contains. *)
Theorem throttling_message_names_tracked_ip
  (req : IpBasedThrottlerGuard.Request) :
  IpBasedThrottlerGuard.trackedIp req <> EmptyString /\
  IpBasedThrottlerGuard.throttlingMessage req
  = "Rate limit exceeded for CSV upload from IP: "
    ++ IpBasedThrottlerGuard.trackedIp req
    ++ ". Please wait before trying again.".
Proof.
  split.
  - unfold IpBasedThrottlerGuard.trackedIp.
    pose proof (or_else_truthy
      (IpBasedThrottlerGuard.or_else
         (IpBasedThrottlerGuard.or_else
            match IpBasedThrottlerGuard.x_forwarded_for req with
            | Some forwarded => head (JS.split "," forwarded)
            | None => None
            end (IpBasedThrottlerGuard.x_real_ip req))
         (IpBasedThrottlerGuard.remoteAddress req))
      (Some "unknown") eq_refl) as H.
    destruct (IpBasedThrottlerGuard.or_else _ (Some "unknown")) as [ip|];
      simpl in *; [|discriminate].
    intros ->. discriminate.
  - unfold IpBasedThrottlerGuard.throttlingMessage,
      IpBasedThrottlerGuard.getTracker.
    rewrite replaceFirst_prefix. reflexivity.
Qed.

Lemma split_head (sep : ascii) (a b : string) :
  count_char sep a = 0%nat ->
  b = EmptyString \/ (exists r, b = String sep r) ->
  head (JS.split sep (a ++ b)) = Some a.
Proof.
  intros Ha Hb. induction a as [|c a IH]; simpl in *.
  - destruct Hb as [->|[r ->]]; simpl; [reflexivity|].
    rewrite Ascii.eqb_refl. reflexivity.
  - destruct (Ascii.eqb c sep) eqn:Hc; [discriminate|].
    specialize (IH Ha).
    destruct (JS.split sep (a ++ b)) as [|w ws]; simpl in *; [discriminate|].
    injection IH as ->. reflexivity.
Qed.

(** X23.  The first address of the [x-forwarded-for] header, when there is one,
    decides the tracker: the other header and the address of the socket
    play no part. *)
Theorem forwarded_header_decides (req : IpBasedThrottlerGuard.Request)
  (client rest : string) :
  IpBasedThrottlerGuard.x_forwarded_for req = Some (client ++ rest) ->
  client <> EmptyString ->
  count_char "," client = 0%nat ->
  rest = EmptyString \/ (exists r, rest = String "," r) ->
  IpBasedThrottlerGuard.getTracker req = "csv-upload:" ++ client.
Proof.
  intros Hf Hne Hc Hr.
  unfold IpBasedThrottlerGuard.getTracker, IpBasedThrottlerGuard.trackedIp.
  rewrite Hf, (split_head "," client rest Hc Hr).
  destruct client as [|c cl]; [congruence|reflexivity].
Qed.

(** ** Pagination *)

Lemma chunks_take {A : Type} (l : list A) (n m : nat) :
  List.concat (map (fun k => take n (drop (k * n) l)) (seq 0 m))
  = take (m * n) l.
Proof.
  induction m as [|m IH]; [reflexivity|].
  rewrite seq_S, map_app, concat_app, IH. simpl.
  rewrite app_nil_r, take_take_drop. f_equal. lia.
Qed.

Lemma queryWindow_eq {A : Type} (matching : list A) (k : nat) (limit : Z) :
  1 <= limit <= 100 ->
  Pagination.queryWindow matching (Z.of_nat (S k)) limit
  = take (Z.to_nat limit) (drop (k * Z.to_nat limit) matching).
Proof.
  intros Hl. unfold Pagination.queryWindow, Pagination.servicePage,
    Pagination.serviceLimit.
  replace (Z.max 1 (Z.min limit 1000)) with limit by lia.
  replace (Z.max 1 (Z.of_nat (S k))) with (Z.of_nat (S k)) by lia.
  f_equal. f_equal. nia.
Qed.

(** X24.  A page never holds more than a hundred products, whatever page and
    limit are asked for, and the limit that the service applies is the one
    that the controller reports. *)
Theorem page_size_bounded {A : Type} (matching : list A) (page limit : Z) :
  let '(data, info) := Pagination.getProducts matching page limit in
  (length data <= 100)%nat /\
  Z.of_nat (length data) <= Pagination.pg_limit info /\
  1 <= Pagination.pg_limit info <= 100 /\
  1 <= Pagination.pg_page info /\
  Pagination.serviceLimit (Pagination.pg_limit info)
  = Pagination.pg_limit info.
Proof.
  unfold Pagination.getProducts, Pagination.queryWindow,
    Pagination.controllerLimit, Pagination.controllerPage,
    Pagination.serviceLimit, Pagination.servicePage.
  cbn [Pagination.pg_limit Pagination.pg_page].
  rewrite length_take. repeat split; lia.
Qed.

(** X25.  The pages from 1 to [totalPages] hold every matching product exactly
    once and in order, and a page after the last one is empty. *)
Theorem pages_cover {A : Type} (matching : list A) (limit : Z) :
  let pages :=
    Z.to_nat (Pagination.pg_totalPages
                (snd (Pagination.getProducts matching 1 limit))) in
  List.concat
    (map (fun p => fst (Pagination.getProducts matching (Z.of_nat p) limit))
         (seq 1 pages))
  = matching /\
  (forall p, (pages < p)%nat ->
     fst (Pagination.getProducts matching (Z.of_nat p) limit) = []).
Proof.
  unfold Pagination.getProducts. cbn [fst snd Pagination.pg_totalPages].
  set (lim := Pagination.controllerLimit limit).
  assert (Hlim : 1 <= lim <= 100)
    by (unfold lim, Pagination.controllerLimit; lia).
  set (n := Z.to_nat lim).
  set (total := Z.of_nat (length matching)).
  set (pages := Z.to_nat (Pagination.totalPagesOf total lim)).
  assert (Hcover : (length matching <= pages * n)%nat).
  { unfold pages, Pagination.totalPagesOf, n, total.
    pose proof (Z.div_mod (Z.of_nat (length matching) + lim - 1) lim ltac:(lia)).
    pose proof (Z.mod_pos_bound (Z.of_nat (length matching) + lim - 1) lim ltac:(lia)).
    assert (0 <= (Z.of_nat (length matching) + lim - 1) / lim)
      by (apply Z.div_pos; lia).
    nia. }
  assert (Hwin : forall k,
            Pagination.queryWindow matching
              (Pagination.controllerPage (Z.of_nat (S k))) lim
            = take n (drop (k * n) matching)).
  { intros k. unfold Pagination.controllerPage.
    replace (Z.max 1 (Z.of_nat (S k))) with (Z.of_nat (S k)) by lia.
    apply queryWindow_eq. exact Hlim. }
  split.
  - rewrite <- seq_shift, map_map.
    rewrite (map_ext _ (fun k => take n (drop (k * n) matching)))
      by (intros k; apply Hwin).
    rewrite chunks_take. apply take_ge. exact Hcover.
  - intros p Hp. destruct p as [|k]; [lia|].
    rewrite Hwin. rewrite drop_ge; [apply take_nil|].
    nia.
Qed.

(** ** Telemetry *)

Lemma recordMetric_returns (name : string) (value : Z)
  (w : Store * NewRelic.Agent) :
  exists a', NewRelic.recordMetric name value w = (Ok tt, (fst w, a')).
Proof.
  unfold NewRelic.recordMetric, NewRelic.tbind, NewRelic.isEnabled,
    NewRelic.tcatch, NewRelic.agent_call, NewRelic.warn, NewRelic.tret.
  destruct w as [s [en fl me no atts wa]]. simpl.
  destruct en; [destruct fl as [|[|] rest]|]; simpl; eexists; reflexivity.
Qed.

Lemma recordError_returns (error : string) (w : Store * NewRelic.Agent) :
  exists a', NewRelic.recordError error w = (Ok tt, (fst w, a')).
Proof.
  unfold NewRelic.recordError, NewRelic.tbind, NewRelic.isEnabled,
    NewRelic.tcatch, NewRelic.agent_call, NewRelic.warn, NewRelic.tret.
  destruct w as [s [en fl me no atts wa]]. simpl.
  destruct en; [destruct fl as [|[|] rest]|]; simpl; eexists; reflexivity.
Qed.

(** X26.  The decorator changes nothing for the caller: a decorated method
    returns what the method returns, throws what it throws, and leaves the
    stores as the method leaves them, whether the agent is enabled or not
    and whether its calls fail or not. *)
Theorem measured_method_unchanged {A : Type} (metricName : string)
  (elapsed : Z) (method : M A) (s : Store) (agent : NewRelic.Agent) :
  let r := NewRelic.MeasureExecutionTime metricName elapsed
             (NewRelic.lift method) (s, agent) in
  (fst r, fst (snd r)) = method s.
Proof.
  unfold NewRelic.MeasureExecutionTime, NewRelic.tcatch, NewRelic.tbind,
    NewRelic.lift, NewRelic.tret, NewRelic.tthrow.
  cbn [fst snd].
  destruct (method s) as [[a|e] s'].
  - destruct (recordMetric_returns metricName elapsed (s', agent))
      as (a1 & ->).
    reflexivity.
  - destruct (recordMetric_returns metricName elapsed (s', agent))
      as (a1 & ->).
    cbn [fst].
    destruct (recordError_returns e (s', a1)) as (a2 & ->).
    reflexivity.
Qed.

(** X27.  A background transaction returns what its operation returns, except
    when the service is enabled and the first call into the agent throws:
    then the operation is not run at all, and the failure of the agent is
    what the caller gets. *)
Theorem background_transaction_cases {A : Type} (name : string)
  (operation : M A) (s : Store) (agent : NewRelic.Agent) :
  let r := NewRelic.startBackgroundTransaction name
             (NewRelic.lift operation) (s, agent) in
  (fst r, fst (snd r))
  = if NewRelic.enabled agent && nextCallFails agent
    then (Err "agent failure", s)
    else operation s.
Proof.
  unfold NewRelic.startBackgroundTransaction, NewRelic.tbind,
    NewRelic.isEnabled, NewRelic.tcatch, NewRelic.agent_call,
    NewRelic.lift, NewRelic.tthrow, nextCallFails.
  destruct agent as [en fl me no atts wa]. simpl.
  destruct en; simpl; [destruct fl as [|[|] rest]; simpl|];
    try (destruct (operation s) as [[a|e] s']; simpl);
    try reflexivity;
    match goal with
    | |- context [NewRelic.recordError ?e ?w] =>
        destruct (recordError_returns e w) as (a2 & ->)
    end; reflexivity.
Qed.

(** ** The retry decision of the second client *)

Lemma deliveries_S (callback : Message -> M Settlement) (n : nat)
  (s : Store) :
  deliveries callback (S n) s
  = match deliver callback s with
    | (Ok (Some a), s') =>
        match deliveries callback n s' with
        | (Ok l, s'') => (Ok (a :: l), s'')
        | (Err e, s'') => (Err e, s'')
        end
    | (Ok None, s') => (Ok [], s')
    | (Err e, s') => (Err e, s')
    end.
Proof.
  simpl. unfold bind, ret.
  destruct (deliver callback s) as [[[a|]|e] s']; reflexivity.
Qed.

Lemma deliver_failing (error : string) (m : Message) (s : Store) :
  deliver (RabbitMQConfig.onMessage (failing error)) (set_queue [m] s)
  = if RabbitMQConfig.nextRetryCount m <=? 3
    then (Ok (Some (Nack true)),
          set_queue [ {| content := content m; headers := headers m;
                         redelivered := true |} ] s)
    else (Ok (Some (Nack false)), set_queue [] s).
Proof.
  unfold deliver, RabbitMQConfig.onMessage, failing. run_monad.
  destruct (RabbitMQConfig.nextRetryCount m <=? 3); reflexivity.
Qed.

(** X28.  The decision is taken from the headers, and a requeued message comes
    back with the headers it had: a message whose handler keeps failing is
    dropped at its first failure when its header is 3 or more, and is
    requeued at every failure otherwise. *)
Theorem retry_decision_is_final (error : string) (m : Message) (n : nat)
  (s : Store) :
  deliveries (RabbitMQConfig.onMessage (failing error)) (S n)
    (set_queue [m] s)
  = if RabbitMQConfig.nextRetryCount m <=? 3
    then (Ok (repeat (Nack true) (S n)),
          set_queue [ {| content := content m; headers := headers m;
                         redelivered := true |} ] s)
    else (Ok [Nack false], set_queue [] s).
Proof.
  revert m. induction n as [|n IH]; intros m;
    rewrite deliveries_S, deliver_failing;
    destruct (RabbitMQConfig.nextRetryCount m <=? 3) eqn:Hd;
    try reflexivity.
  rewrite (IH {| content := content m; headers := headers m;
                 redelivered := true |}).
  change (RabbitMQConfig.nextRetryCount
            {| content := content m; headers := headers m;
               redelivered := true |})
    with (RabbitMQConfig.nextRetryCount m).
  rewrite Hd. reflexivity.
Qed.

(** ** The generator of the load-test files *)

Lemma N_range_In (lo : N) (len : nat) (n : N) :
  (lo <= n < lo + N.of_nat len)%N -> In n (N_range lo len).
Proof.
  intros Hn. unfold N_range. apply in_map_iff.
  exists (N.to_nat (n - lo)). split; [lia|]. apply in_seq. lia.
Qed.

Lemma all_prices_parse :
  forallb priceParses (N_range 100 (N.to_nat 20001)) = true.
Proof. vm_compute. reflexivity. Qed.

Lemma all_dates_parse :
  forallb (fun m =>
    forallb (fun d =>
      forallb (fun y => dateParses m d y) (N_range 2023 3))
      (N_range 1 28))
    (N_range 1 12) = true.
Proof. vm_compute. reflexivity. Qed.

(** X29.  Whatever the generator draws, the row it writes is valid for the
    pipeline, with the price and the calendar date that were drawn. *)
Theorem generated_rows_valid (rates : ExchangeRates) (rowName : string)
  (cents month day year : N) :
  rowName <> EmptyString ->
  Generator.drawn cents month day year ->
  exists p,
    validateRow rates
      [rowName; Generator.priceCell cents;
       Generator.expirationCell month day year] = Valid p /\
    price p = JS.Finite (Z.of_N cents) (-2) /\
    JSDate.getFullYear (expiration p) = Some (Z.of_N year) /\
    JSDate.getMonth (expiration p) = Some (Z.of_N month - 1) /\
    JSDate.getDate (expiration p) = Some (Z.of_N day).
Proof.
  intros Hname (Hc & Hm & Hd & Hy).
  pose proof all_prices_parse as Hprices.
  rewrite forallb_forall in Hprices.
  assert (Hin : In cents (N_range 100 (N.to_nat 20001)))
    by (apply N_range_In; rewrite N2Nat.id; lia).
  specialize (Hprices cents Hin).
  pose proof all_dates_parse as Hdates.
  rewrite forallb_forall in Hdates.
  specialize (Hdates month (N_range_In 1 12 month ltac:(lia))).
  rewrite forallb_forall in Hdates.
  specialize (Hdates day (N_range_In 1 28 day ltac:(lia))).
  rewrite forallb_forall in Hdates.
  specialize (Hdates year (N_range_In 2023 3 year ltac:(lia))).
  unfold priceParses in Hprices. unfold dateParses in Hdates.
  set (pc := Generator.priceCell cents) in *.
  set (ec := Generator.expirationCell month day year) in *.
  destruct (parsePrice pc) as [| |m e] eqn:Hpp; try discriminate.
  apply andb_true_iff in Hprices as [Hm1 He1].
  apply Z.eqb_eq in Hm1, He1. subst m e.
  apply andb_true_iff in Hdates as [Hdates Hne].
  apply andb_true_iff in Hdates as [Hparts Hdate].
  destruct (map JS.parseInt (JS.split "/" ec))
    as [|[m'|] [|[d'|] [|[y'|] [|? ?]]]] eqn:Hsplit; try discriminate.
  apply andb_true_iff in Hparts as [Hparts Hy'].
  apply andb_true_iff in Hparts as [Hm' Hd'].
  apply Z.eqb_eq in Hm', Hd', Hy'. subst m' d' y'.
  destruct (JSDate.newDate (Z.of_N year) (Z.of_N month - 1) (Z.of_N day))
    as [|dd] eqn:Hnew; try discriminate.
  apply andb_true_iff in Hdate as [Hdate Hdd].
  apply andb_true_iff in Hdate as [Hyy Hmm].
  apply Z.eqb_eq in Hyy, Hmm, Hdd.
  apply negb_true_iff in Hne.
  assert (Hok : fieldsAndPriceOk [rowName; pc; ec] = true).
  { unfold fieldsAndPriceOk, isHeaderRow, row_name, row_price, row_expiration.
    cbn [lookup list_lookup is_cell falsy from_option id].
    replace (pc =? "price")%string with false by reflexivity.
    replace (pc =? EmptyString)%string with false by reflexivity.
    rewrite Hne, Hpp.
    assert ((rowName =? EmptyString)%string = false) as ->
      by (apply String.eqb_neq; exact Hname).
    rewrite andb_false_r. reflexivity. }
  rewrite (validateRow_dated rates [rowName; pc; ec] ec Hok eq_refl), Hsplit.
  unfold dateCheck. rewrite Hnew. cbn [JSDate.isInvalid JSDate.getFullYear].
  rewrite Hyy, bool_decide_eq_true_2 by reflexivity. cbn [negb orb].
  eexists. split; [reflexivity|].
  cbn [price expiration row_price from_option id lookup list_lookup
       JSDate.getFullYear JSDate.getMonth JSDate.getDate].
  rewrite Hpp, Hyy, Hmm, Hdd. auto.
Qed.

(** ** Concrete runs of the further properties *)

(** 1001 products: the inserts carry them all, in two batches. *)
Lemma sent_batches_partition_witness :
  exists sent,
    db_log (snd (processProductsInBatches steady_env many_products cold_store))
    = DeleteMany :: sent /\
    List.concat (sentBatches sent) = many_products /\
    length sent = 2%nat.
Proof.
  destruct (sent_batches_partition steady_env many_products cold_store eq_refl)
    as (sent & Hlog & Hlen & Hcat & _).
  exists sent. split; [exact Hlog|]. split; [exact Hcat|].
  assert (Hl : length (db_log (snd (processProductsInBatches steady_env
                                      many_products cold_store))) = 3%nat)
    by (vm_compute; reflexivity).
  rewrite Hlog in Hl. simpl in Hl. lia.
Defined.


(** The second data row of the scenario. *)
Lemma missing_field_rejected_witness :
  validateRow (snapshot_of cached_snapshot)
    [EmptyString; "5.00"; "01/01/2025"]
  = Invalid "Missing required fields".
Proof. apply missing_field_rejected. reflexivity. Defined.

(** The error on the third data row of the scenario. *)
Lemma error_lines_witness :
  let rs := CsvParser.rows ";" 1 scenario_file in
  let e := {| row := ["Pear"; "abc"; "02/02/2025"];
              error := "Invalid price format: abc"; line := 3 |} in
  rs !! 2%nat = Some (row e) /\
  validateRow (snapshot_of cached_snapshot) (row e) = Invalid (error e).
Proof.
  intros rs e.
  assert (He : e ∈ errors (parseRows (snapshot_of cached_snapshot) rs)).
  { apply list_elem_of_In. vm_compute. auto. }
  destruct (error_lines (snapshot_of cached_snapshot) rs e He)
    as (_ & Hrow & Hmsg).
  split; [exact Hrow|exact Hmsg].
Defined.

(** The product of the scenario carries the cached snapshot. *)
Lemma products_carry_snapshot_witness :
  exchangeRates apple = snapshot_of cached_snapshot /\
  JS.isNaN (price apple) = false /\
  JSDate.isInvalid (expiration apple) = false.
Proof.
  apply (products_carry_snapshot (snapshot_of cached_snapshot)
           (CsvParser.rows ";" 1 scenario_file) apple).
  apply list_elem_of_In. vm_compute. auto.
Defined.

Lemma parsed_names_witness :
  name apple <> EmptyString /\
  exists data,
    data ∈ CsvParser.rows ";" 1 scenario_file /\
    row_name data = Some (name apple).
Proof.
  apply (parsed_names (snapshot_of cached_snapshot) scenario_file apple).
  apply list_elem_of_In. vm_compute. auto.
Defined.

(** The 30th of February passes the date check. *)
Lemma plausible_month_iff_witness :
  (exists p,
     validateRow (snapshot_of cached_snapshot)
       ["Widget"; "$1.00"; "02/30/2024"] = Valid p)
  <-> 1 <= 2 <= 12.
Proof.
  apply (plausible_month_iff (snapshot_of cached_snapshot)
           ["Widget"; "$1.00"; "02/30/2024"] "02/30/2024" 2 30 2024);
    try reflexivity; lia.
Defined.

Lemma two_digit_year_rejected_witness :
  validateRow (snapshot_of cached_snapshot) ["Widget"; "$1.00"; "12/31/24"]
  = Invalid "Invalid date: 12/31/24".
Proof.
  apply (two_digit_year_rejected (snapshot_of cached_snapshot)
           ["Widget"; "$1.00"; "12/31/24"] "12/31/24" 12 31 24);
    try reflexivity; lia.
Defined.

(** A row of the upload test script, with its date in ISO form. *)
Lemma wrong_number_of_slashes_witness :
  validateRow (snapshot_of cached_snapshot)
    ["Product 1"; "100.00"; "2024-12-31"]
  = Invalid "Invalid date format. Expected MM/DD/YYYY: 2024-12-31".
Proof.
  apply (wrong_number_of_slashes (snapshot_of cached_snapshot)
           ["Product 1"; "100.00"; "2024-12-31"] "2024-12-31");
    try reflexivity.
  vm_compute. lia.
Defined.

Lemma replace_all_witness :
  exists s',
    processProductsInBatches steady_env many_products cold_store
    = (Ok tt, s') /\
    catalog s' = many_products.
Proof.
  apply (replace_all steady_env many_products cold_store);
    [reflexivity | intros k p; reflexivity].
Defined.

Lemma catalog_sublist_witness :
  sublist
    (catalog (snd (processProductsInBatches flaky_env many_products
                     cold_store)))
    many_products.
Proof.
  apply (catalog_sublist flaky_env many_products cold_store). reflexivity.
Defined.

Lemma successes_without_inserts_witness :
  exists s',
    processCSVFileWithMetrics refusing_env products_path warm_store
    = (Ok (result_of (parseRows (snapshot_of cached_snapshot)
                        (CsvParser.rows ";" 1 scenario_file))), s') /\
    (0 < successCount (parseRows (snapshot_of cached_snapshot)
                         (CsvParser.rows ";" 1 scenario_file)))%nat /\
    catalog s' = [].
Proof.
  apply (successes_without_inserts refusing_env warm_store warm_store
           (snapshot_of cached_snapshot) products_path scenario_file).
  - vm_compute. reflexivity.
  - vm_compute. reflexivity.
  - vm_compute. discriminate.
  - reflexivity.
  - intros k p. reflexivity.
Defined.

Lemma clear_failure_rejects_witness :
  exists s',
    processCSVFileWithMetrics locked_env products_path warm_store
    = (Err "deleteMany failed", s') /\
    catalog s' = catalog warm_store /\
    db_log s' = (db_log warm_store ++ [DeleteMany])%list.
Proof.
  apply (clear_failure_rejects locked_env warm_store warm_store
           (snapshot_of cached_snapshot) products_path scenario_file).
  - vm_compute. reflexivity.
  - vm_compute. reflexivity.
  - vm_compute. discriminate.
  - reflexivity.
Defined.

Lemma pipeline_resolves_witness :
  exists rates s',
    processCSVFileWithMetrics flaky_env products_path cold_store
    = (Ok (result_of (parseRows rates
                        (CsvParser.rows ";" 1 scenario_file))), s').
Proof.
  apply (pipeline_resolves flaky_env cold_store products_path scenario_file).
  - right. eexists. reflexivity.
  - vm_compute. reflexivity.
  - reflexivity.
Defined.

(** The provider answers the first call and is down at the second. *)
Lemma cache_serves_second_call_witness :
  exists r s1,
    getExchangeRates flaky_env cold_store = (Ok r, s1) /\
    rd_rates r = usd_rates /\
    getExchangeRates steady_env s1 = (Ok r, s1).
Proof.
  apply (cache_serves_second_call flaky_env steady_env cold_store usd_rates);
    [ right; reflexivity | reflexivity | reflexivity | reflexivity ].
Defined.

Lemma upload_then_consume_witness :
  let up := processCSVFromUpload steady_env (Some upload) warm_store in
  let dl := deliver (RabbitMQService.onMessage (processor steady_env))
              (snd up) in
  fst up = Ok {| processed := 0; summary_errors := 0 |} /\
  fst dl = Ok (Some Ack) /\
  catalog (snd dl) = [apple] /\
  files (snd dl) !! tempFilePathOf steady_env upload = None.
Proof.
  intros up dl.
  destruct (upload_then_consume steady_env upload scenario_file warm_store
              eq_refl eq_refl eq_refl eq_refl eq_refl)
    as (Hup & _ & Hdl & (_ & Hcat & _) & _ & Hfile).
  fold up in Hup. fold up dl in Hdl, Hcat, Hfile.
  split; [exact Hup|]. split; [|split].
  - rewrite Hdl. vm_compute. reflexivity.
  - rewrite <- Hcat. vm_compute. reflexivity.
  - rewrite Hfile. vm_compute. reflexivity.
Defined.

Lemma message_without_path_acknowledged_witness :
  deliver (RabbitMQService.onMessage (processor steady_env))
    (set_queue [pathless_message] warm_store)
  = (Ok (Some Ack), set_queue [] warm_store).
Proof.
  apply (message_without_path_acknowledged steady_env pathless_message
           warm_store).
  reflexivity.
Defined.

Lemma load_file_consumed_once_witness :
  exists s1 s2,
    processCSVFromFile steady_env server_cwd load_store
    = (Ok "CSV sent for background processing via RabbitMQ.", s1) /\
    deliver (RabbitMQService.onMessage (processor steady_env)) s1
    = (Ok (Some Ack), s2) /\
    fst (processCSVFromFile steady_env server_cwd s2)
    = Err ("CSV file not found at: " ++ loadTestFile server_cwd).
Proof.
  apply (load_file_consumed_once steady_env server_cwd scenario_file
           load_store);
    [ reflexivity | reflexivity | vm_compute; reflexivity | reflexivity
    | left; split; [reflexivity | eexists; reflexivity] | reflexivity ].
Defined.

Lemma sync_failure_masked_witness :
  processCSVFromFile offline_env server_cwd cold_load_store
  = (Ok "CSV processed synchronously. Success: 0, Errors: 1",
     cold_load_store).
Proof.
  apply (sync_failure_masked offline_env server_cwd scenario_file
           cold_load_store);
    [ vm_compute; reflexivity | reflexivity | right; reflexivity
    | reflexivity ].
Defined.

(** One outage: the connect fails, and the connection reports an error and
    its closing. *)
Lemma reconnect_backoff_witness :
  let c := Reconnect.run Reconnect.initial
             [Reconnect.ConnectFailed; Reconnect.ConnectionError;
              Reconnect.ConnectionClosed] in
  Reconnect.reconnectAttempts c = 3%nat /\
  Reconnect.timers c = map (fun k => (5000 * k)%nat) [1; 2; 3]%nat.
Proof.
  intros c.
  destruct (reconnect_backoff Reconnect.initial
              [Reconnect.ConnectFailed; Reconnect.ConnectionError;
               Reconnect.ConnectionClosed]) as [Ha Ht].
  - repeat constructor; discriminate.
  - vm_compute. lia.
  - fold c in Ha, Ht. split.
    + rewrite Ha. reflexivity.
    + rewrite Ht, Ha. reflexivity.
Defined.

Lemma forwarded_header_decides_witness :
  IpBasedThrottlerGuard.getTracker proxied_request
  = "csv-upload:203.0.113.7".
Proof.
  apply (forwarded_header_decides proxied_request "203.0.113.7"
           ", 10.0.0.1").
  - reflexivity.
  - discriminate.
  - reflexivity.
  - right. eexists. reflexivity.
Defined.

Lemma generated_rows_valid_witness :
  exists p,
    validateRow (snapshot_of cached_snapshot)
      ["Chevril #(42)"; Generator.priceCell 1999;
       Generator.expirationCell 2 28 2024] = Valid p /\
    price p = JS.Finite 1999 (-2) /\
    JSDate.getFullYear (expiration p) = Some 2024 /\
    JSDate.getMonth (expiration p) = Some 1 /\
    JSDate.getDate (expiration p) = Some 28.
Proof.
  apply (generated_rows_valid (snapshot_of cached_snapshot) "Chevril #(42)"
           1999%N 2%N 28%N 2024%N).
  - discriminate.
  - unfold Generator.drawn. lia.
Defined.
